(** * The X11 window shell of the LAF OS library (os/x11/window.cpp)

    A shallow embedding of [WindowX11]: the handle registry, the
    fullscreen toggle, the cursor synthesizer and the translation of native
    X11 events into canonical events, followed by the properties proved
    about them.

    Conventions of the embedding.
    - C++ [int] values are integers of [Z]; signed overflow is undefined in
      the source and is not given a meaning here.  The division [a / b] of
      two [int]s truncates toward zero and is written [Z.quot].
    - [uint32_t] arithmetic wraps: a left shift is followed by [wrap32].
    - Xlib resource identifiers ([::Window], [Cursor], [Atom], [Time]) are
      integers; [None] is 0.
    - Calls into the X server or into the owner of the window (the event
      queue, the resize and paint callbacks) are recorded, in order, as a
      list of [Effect]s. *)

From stdpp Require Import base gmap sets list.
From Stdlib Require Import ZArith Lia.

Local Open Scope Z_scope.

(** ** Geometry (gfx/point.h, gfx/size.h, gfx/rect.h, gfx/border.h) *)

Record Point := mkPoint { px : Z; py : Z }.
Record Size := mkSize { sw : Z; sh : Z }.
Record Rect := mkRect { rx : Z; ry : Z; rw : Z; rh : Z }.
Record Border := mkBorder { b_left : Z; b_top : Z; b_right : Z; b_bottom : Z }.

Global Instance Point_eq_dec : EqDecision Point.
Proof. solve_decision. Defined.
Global Instance Size_eq_dec : EqDecision Size.
Proof. solve_decision. Defined.
Global Instance Rect_eq_dec : EqDecision Rect.
Proof. solve_decision. Defined.
Global Instance Border_eq_dec : EqDecision Border.
Proof. solve_decision. Defined.

Definition Rect_size (rc : Rect) : Size := mkSize (rw rc) (rh rc).

Definition Border_width (b : Border) : Z := b_left b + b_right b.
Definition Border_height (b : Border) : Z := b_top b + b_bottom b.

(** Modelled from the spec: [gfx::Border] and [gfx::Rect::enlarge] are
    declared in gfx/border.h and gfx/rect.h, which are not among the
    sources.  A default-constructed border has four zero insets ("until that
    notification arrives, frame() must use a zero-inset fallback") and the
    frame is "the content rectangle enlarged by the insets": each edge moves
    outwards by its inset. *)
Definition Border_default : Border := mkBorder 0 0 0 0.

Definition Rect_enlarge (rc : Rect) (br : Border) : Rect :=
  mkRect (rx rc - b_left br) (ry rc - b_top br)
         (rw rc + (b_left br + b_right br))
         (rh rc + (b_top br + b_bottom br)).

(** ** Canonical events (os/event.h) *)

Inductive MouseButton :=
  NoneButton | LeftButton | RightButton | MiddleButton | X1Button | X2Button.

Global Instance MouseButton_eq_dec : EqDecision MouseButton.
Proof. solve_decision. Defined.

Inductive EventType :=
  | NoneType | CloseWindow | ResizeWindow | DropFiles
  | MouseEnter | MouseLeave | MouseMove | MouseDown | MouseUp
  | MouseWheel | MouseDoubleClick | KeyDown | KeyUp | TouchMagnify.

Global Instance EventType_eq_dec : EqDecision EventType.
Proof. solve_decision. Defined.

(** Modelled from the spec: the [Event] class is declared in os/event.h,
    which is not among the sources.  Its "payload fields [are] populated per
    kind": a field that the translator did not set is [None]. *)
Record Event := mkEvent {
  ev_type : EventType;
  ev_position : option Point;
  ev_modifiers : option Z;
  ev_button : option MouseButton;
  ev_wheelDelta : option Point;
  ev_scancode : option Z;
  ev_unicodeChar : option Z
}.

Global Instance Event_eq_dec : EqDecision Event.
Proof. solve_decision. Defined.

Definition Event_new : Event := mkEvent NoneType None None None None None None.

Definition setType (t : EventType) (ev : Event) : Event :=
  mkEvent t (ev_position ev) (ev_modifiers ev) (ev_button ev)
          (ev_wheelDelta ev) (ev_scancode ev) (ev_unicodeChar ev).
Definition setPosition (p : Point) (ev : Event) : Event :=
  mkEvent (ev_type ev) (Some p) (ev_modifiers ev) (ev_button ev)
          (ev_wheelDelta ev) (ev_scancode ev) (ev_unicodeChar ev).
Definition setModifiers (m : Z) (ev : Event) : Event :=
  mkEvent (ev_type ev) (ev_position ev) (Some m) (ev_button ev)
          (ev_wheelDelta ev) (ev_scancode ev) (ev_unicodeChar ev).
Definition setButton (b : MouseButton) (ev : Event) : Event :=
  mkEvent (ev_type ev) (ev_position ev) (ev_modifiers ev) (Some b)
          (ev_wheelDelta ev) (ev_scancode ev) (ev_unicodeChar ev).
Definition setWheelDelta (d : Point) (ev : Event) : Event :=
  mkEvent (ev_type ev) (ev_position ev) (ev_modifiers ev) (ev_button ev)
          (Some d) (ev_scancode ev) (ev_unicodeChar ev).
Definition setScancode (k : Z) (ev : Event) : Event :=
  mkEvent (ev_type ev) (ev_position ev) (ev_modifiers ev) (ev_button ev)
          (ev_wheelDelta ev) (Some k) (ev_unicodeChar ev).
Definition setUnicodeChar (c : Z) (ev : Event) : Event :=
  mkEvent (ev_type ev) (ev_position ev) (ev_modifiers ev) (ev_button ev)
          (ev_wheelDelta ev) (ev_scancode ev) (Some c).

(** ** Constants of the source file and of the X protocol *)

Definition LAF_X11_DOUBLE_CLICK_TIMEOUT : Z := 250.

Definition _NET_WM_STATE_REMOVE : Z := 0.
Definition _NET_WM_STATE_ADD : Z := 1.

(** X.h *)
Definition XNone : Z := 0.
Definition Button4 : Z := 4.
Definition Button5 : Z := 5.
Definition NotifyNormal : Z := 0.
Definition NotifyGrab : Z := 1.
Definition NotifyUngrab : Z := 2.

(** keysymdef.h *)
Definition XK_space : Z := 0x20.
Definition XK_Shift_L : Z := 0xffe1.
Definition XK_Shift_R : Z := 0xffe2.
Definition XK_Control_L : Z := 0xffe3.
Definition XK_Control_R : Z := 0xffe4.
Definition XK_Meta_L : Z := 0xffe7.
Definition XK_Meta_R : Z := 0xffe8.
Definition XK_Alt_L : Z := 0xffe9.
Definition XK_Alt_R : Z := 0xffea.
Definition XK_Super_L : Z := 0xffeb.
Definition XK_Super_R : Z := 0xffec.

(** ** Wheel buttons *)

Definition is_mouse_wheel_button (button : Z) : bool :=
  (button =? Button4) || (button =? Button5) ||
  (button =? 6) || (button =? 7).

Definition get_mouse_wheel_delta (button : Z) : Point :=
  let delta := mkPoint 0 0 in
  if button =? Button4 then mkPoint (px delta) (-1)
  else if button =? Button5 then mkPoint (px delta) 1
  else if button =? 6 then mkPoint (-1) (py delta)
  else if button =? 7 then mkPoint 1 (py delta)
  else delta.

(** ** The window registry: [g_activeWindows]

    The map sends the native identifier of a window to the address of its
    [WindowX11] object.  A window is presented to the registry by its
    address and by the identifier that [x11window()] reads from it. *)

Record WindowRef := mkWindowRef { this : Z; x11window : Z }.

(** The outcome of an operation guarded by [ASSERT]: it runs to its end, or a
    failed assertion stops it.  The registry carried by [AssertionFailed] is
    the registry at the moment the assertion failed. *)
Inductive Asserted (A : Type) :=
  | Done (a : A)
  | AssertionFailed (a : A).
Arguments Done {A} a.
Arguments AssertionFailed {A} a.

(** Modelled from the spec: the [ASSERT] macro comes from base/debug.h, which
    is not among the sources.  The spec names its effect "rejected/asserted":
    in a build that checks assertions ([checked = true]) a false condition
    stops the operation; a build that does not check them skips the test. *)
Definition ASSERT {A} (checked : bool) (cond : bool) (st : A)
    (k : Asserted A) : Asserted A :=
  if checked && negb cond then AssertionFailed st else k.

Definition getPointerFromHandle (g_activeWindows : gmap Z Z) (handle : Z)
    : option Z :=
  g_activeWindows !! handle.

Definition addWindow (checked : bool) (window : WindowRef)
    (g_activeWindows : gmap Z Z) : Asserted (gmap Z Z) :=
  ASSERT checked
    (bool_decide (g_activeWindows !! x11window window = None))
    g_activeWindows
    (Done (<[x11window window := this window]> g_activeWindows)).

Definition removeWindow (checked : bool) (window : WindowRef)
    (g_activeWindows : gmap Z Z) : Asserted (gmap Z Z) :=
  let it := g_activeWindows !! x11window window in
  ASSERT checked (bool_decide (it ≠ None)) g_activeWindows
    match it with
    | Some second =>
        ASSERT checked (bool_decide (second = this window)) g_activeWindows
          (Done (delete (x11window window) g_activeWindows))
    | None => Done g_activeWindows
    end.

(** ** What the window does to the outside world *)

(** The [XEvent] sent by [XSendEvent] to the root window: a [ClientMessage]
    with its message type, format and the first four longs of its data. *)
Record XClientMessage := mkXClientMessage {
  xc_window : Z;
  xc_message_type : Z;
  xc_format : Z;
  xc_l0 : Z; xc_l1 : Z; xc_l2 : Z; xc_l3 : Z
}.

Inductive Effect :=
  | queueEvent (ev : Event)
  | onResize (size : Size)
  | onPaint (rc : Rect)
  | XResizeWindow (w h : Z)
  | XChangeProperty (property : Z) (data : list Z)
  | XSendEvent (message : XClientMessage).

(** The canonical events among the effects, in the order they were queued. *)
Definition queued (effects : list Effect) : list Event :=
  omap (λ e, match e with queueEvent ev => Some ev | _ => None end) effects.

(** The protocol messages among the effects. *)
Definition sent (effects : list Effect) : list XClientMessage :=
  omap (λ e, match e with XSendEvent m => Some m | _ => None end) effects.

(** ** The window object and the globals of the translation unit *)

(** [XcursorImage]: the device-resolution picture of a bitmap cursor. *)
Record XcursorImage := mkXcursorImage {
  xi_width : Z;
  xi_height : Z;
  xi_xhot : Z;
  xi_yhot : Z;
  xi_pixels : list Z
}.

Record WindowX11 := mkWindowX11 {
  m_window : Z;
  m_cursor : Z;
  m_xcursorImage : option XcursorImage;
  m_xic : bool;
  m_scale : Z;
  m_lastMousePos : Point;
  m_lastClientSize : Size;
  m_fullScreen : bool;
  m_doubleClickButton : MouseButton;
  m_doubleClickTick : Z;
  m_borderless : bool;
  m_frameExtents : Border;
  m_initializingFromFrame : bool
}.

Definition set_m_cursor (v : Z) (w : WindowX11) : WindowX11 :=
  mkWindowX11 (m_window w) v (m_xcursorImage w) (m_xic w) (m_scale w)
    (m_lastMousePos w) (m_lastClientSize w) (m_fullScreen w)
    (m_doubleClickButton w) (m_doubleClickTick w) (m_borderless w)
    (m_frameExtents w) (m_initializingFromFrame w).
Definition set_m_xcursorImage (v : option XcursorImage) (w : WindowX11)
    : WindowX11 :=
  mkWindowX11 (m_window w) (m_cursor w) v (m_xic w) (m_scale w)
    (m_lastMousePos w) (m_lastClientSize w) (m_fullScreen w)
    (m_doubleClickButton w) (m_doubleClickTick w) (m_borderless w)
    (m_frameExtents w) (m_initializingFromFrame w).
Definition set_m_lastMousePos (v : Point) (w : WindowX11) : WindowX11 :=
  mkWindowX11 (m_window w) (m_cursor w) (m_xcursorImage w) (m_xic w)
    (m_scale w) v (m_lastClientSize w) (m_fullScreen w)
    (m_doubleClickButton w) (m_doubleClickTick w) (m_borderless w)
    (m_frameExtents w) (m_initializingFromFrame w).
Definition set_m_lastClientSize (v : Size) (w : WindowX11) : WindowX11 :=
  mkWindowX11 (m_window w) (m_cursor w) (m_xcursorImage w) (m_xic w)
    (m_scale w) (m_lastMousePos w) v (m_fullScreen w)
    (m_doubleClickButton w) (m_doubleClickTick w) (m_borderless w)
    (m_frameExtents w) (m_initializingFromFrame w).
Definition set_m_fullScreen (v : bool) (w : WindowX11) : WindowX11 :=
  mkWindowX11 (m_window w) (m_cursor w) (m_xcursorImage w) (m_xic w)
    (m_scale w) (m_lastMousePos w) (m_lastClientSize w) v
    (m_doubleClickButton w) (m_doubleClickTick w) (m_borderless w)
    (m_frameExtents w) (m_initializingFromFrame w).
Definition set_m_doubleClickButton (v : MouseButton) (w : WindowX11)
    : WindowX11 :=
  mkWindowX11 (m_window w) (m_cursor w) (m_xcursorImage w) (m_xic w)
    (m_scale w) (m_lastMousePos w) (m_lastClientSize w) (m_fullScreen w)
    v (m_doubleClickTick w) (m_borderless w)
    (m_frameExtents w) (m_initializingFromFrame w).
Definition set_m_doubleClickTick (v : Z) (w : WindowX11) : WindowX11 :=
  mkWindowX11 (m_window w) (m_cursor w) (m_xcursorImage w) (m_xic w)
    (m_scale w) (m_lastMousePos w) (m_lastClientSize w) (m_fullScreen w)
    (m_doubleClickButton w) v (m_borderless w)
    (m_frameExtents w) (m_initializingFromFrame w).
Definition set_m_frameExtents (v : Border) (w : WindowX11) : WindowX11 :=
  mkWindowX11 (m_window w) (m_cursor w) (m_xcursorImage w) (m_xic w)
    (m_scale w) (m_lastMousePos w) (m_lastClientSize w) (m_fullScreen w)
    (m_doubleClickButton w) (m_doubleClickTick w) (m_borderless w)
    v (m_initializingFromFrame w).
Definition set_m_initializingFromFrame (v : bool) (w : WindowX11)
    : WindowX11 :=
  mkWindowX11 (m_window w) (m_cursor w) (m_xcursorImage w) (m_xic w)
    (m_scale w) (m_lastMousePos w) (m_lastClientSize w) (m_fullScreen w)
    (m_doubleClickButton w) (m_doubleClickTick w) (m_borderless w)
    (m_frameExtents w) v.

(** The file-level variables of window.cpp used by the translator and the
    cursor code, and [g_spaceBarIsPressed] which the key translation
    shares with it. *)
Record Globals := mkGlobals {
  WM_DELETE_WINDOW : Z;
  _NET_FRAME_EXTENTS : Z;
  _NET_WM_STATE : Z;
  empty_xcursor : Z;
  g_lastXInputEventTime : Z;
  g_spaceBarIsPressed : bool
}.

Definition set_empty_xcursor (v : Z) (g : Globals) : Globals :=
  mkGlobals (WM_DELETE_WINDOW g) (_NET_FRAME_EXTENTS g) (_NET_WM_STATE g)
    v (g_lastXInputEventTime g) (g_spaceBarIsPressed g).
Definition set_g_lastXInputEventTime (v : Z) (g : Globals) : Globals :=
  mkGlobals (WM_DELETE_WINDOW g) (_NET_FRAME_EXTENTS g) (_NET_WM_STATE g)
    (empty_xcursor g) v (g_spaceBarIsPressed g).
Definition set_g_spaceBarIsPressed (v : bool) (g : Globals) : Globals :=
  mkGlobals (WM_DELETE_WINDOW g) (_NET_FRAME_EXTENTS g) (_NET_WM_STATE g)
    (empty_xcursor g) (g_lastXInputEventTime g) v.

(** ** Construction

    The part of [WindowSpec] the constructor reads: [spec_frame] is the frame
    of the spec when that frame is not empty. *)
Record WindowSpec := mkWindowSpec {
  spec_frame : option Rect;
  spec_contentRect : Rect;
  spec_scale : Z;
  spec_borderless : bool
}.

(** Modelled from the spec: the members that the constructor's initializer
    list leaves out are initialized in os/x11/window.h, which is not among the
    sources.  The insets start at zero ("until that notification arrives,
    frame() must use a zero-inset fallback"), the cached fullscreen flag
    starts false, and the tick of the last press has no meaningful value yet
    ([tick0]).  [handle] is the identifier returned by [XCreateWindow] and
    [xic] tells whether an input context was created. *)
Definition WindowX11_new (handle : Z) (xic : bool) (tick0 : Z)
    (spec : WindowSpec) : WindowX11 :=
  {| m_window := handle;
     m_cursor := XNone;
     m_xcursorImage := None;
     m_xic := xic;
     m_scale := spec_scale spec;
     m_lastMousePos := mkPoint (-1) (-1);
     m_lastClientSize := mkSize 0 0;
     m_fullScreen := false;
     m_doubleClickButton := NoneButton;
     m_doubleClickTick := tick0;
     m_borderless := spec_borderless spec;
     m_frameExtents := Border_default;
     m_initializingFromFrame :=
       match spec_frame spec with Some _ => true | None => false end |}.

(** ** Geometry queries *)

(** What the server answers to [XGetGeometry] and to the translation of the
    window's origin into root coordinates by [XTranslateCoordinates]. *)
Record XGeometry := mkXGeometry {
  geo_root_x : Z;
  geo_root_y : Z;
  geo_width : Z;
  geo_height : Z
}.

Definition contentRect (srv : XGeometry) (w : WindowX11) : Rect :=
  mkRect (geo_root_x srv) (geo_root_y srv) (geo_width srv) (geo_height srv).

Definition frame (srv : XGeometry) (w : WindowX11) : Rect :=
  let rc := contentRect srv w in
  Rect_enlarge rc (m_frameExtents w).

Definition clientSize (srv : XGeometry) (w : WindowX11) : Size :=
  mkSize (geo_width srv) (geo_height srv).

(** ** Fullscreen *)

Definition isFullscreen (w : WindowX11) : bool := m_fullScreen w.

(** [fullscreen_atom] is the answer of [XInternAtom] for
    "_NET_WM_STATE_FULLSCREEN". *)
Definition setFullscreen (g : Globals) (fullscreen_atom : Z) (state : bool)
    (w : WindowX11) : WindowX11 * list Effect :=
  if bool_decide (isFullscreen w = state) then (w, [])
  else
    let _NET_WM_STATE_FULLSCREEN := fullscreen_atom in
    if (_NET_WM_STATE g =? XNone) || (_NET_WM_STATE_FULLSCREEN =? XNone)
    then (w, [])
    else
      let event :=
        {| xc_window := m_window w;
           xc_message_type := _NET_WM_STATE g;
           xc_format := 32;
           xc_l0 := if state then _NET_WM_STATE_ADD else _NET_WM_STATE_REMOVE;
           xc_l1 := _NET_WM_STATE_FULLSCREEN;
           xc_l2 := 0;
           xc_l3 := 0 |} in
      (set_m_fullScreen state w, [XSendEvent event]).

(** Calls made one after the other on the same window; the effects
    accumulate in order. *)
Definition setFullscreen_twice (g : Globals) (fullscreen_atom : Z)
    (s1 s2 : bool) (w : WindowX11) : WindowX11 * list Effect :=
  let '(w1, e1) := setFullscreen g fullscreen_atom s1 w in
  let '(w2, e2) := setFullscreen g fullscreen_atom s2 w1 in
  (w2, e1 ++ e2).

(** ** Cursors

    The cursor resources of the X server: the identifiers that are alive,
    the next identifier the server hands out, and the cursor defined for
    each window by [XDefineCursor]. *)
Record XServer := mkXServer {
  live_cursors : gset Z;
  next_xid : Z;
  defined_cursor : gmap Z Z
}.

(** [XCreateFontCursor], [XCreatePixmapCursor] and a successful
    [XcursorImageLoadCursor] all create a cursor under a fresh identifier. *)
Definition XCreateCursor (srv : XServer) : Z * XServer :=
  (next_xid srv,
   mkXServer ({[next_xid srv]} ∪ live_cursors srv) (next_xid srv + 1)
             (defined_cursor srv)).

Definition XFreeCursor (cursor : Z) (srv : XServer) : XServer :=
  mkXServer (live_cursors srv ∖ {[cursor]}) (next_xid srv)
            (defined_cursor srv).

Definition XDefineCursor (window cursor : Z) (srv : XServer) : XServer :=
  mkXServer (live_cursors srv) (next_xid srv)
            (<[window := cursor]> (defined_cursor srv)).

(** What the cursor functions read and write: the server, the globals
    (for [empty_xcursor]) and the window. *)
Record CursorState := mkCursorState {
  cs_server : XServer;
  cs_globals : Globals;
  cs_window : WindowX11
}.

Definition setX11Cursor (xcursor : Z) (st : CursorState)
    : CursorState * bool :=
  let '(mkCursorState srv g w) := st in
  let '(srv, w) :=
    if bool_decide (m_cursor w ≠ XNone) then
      (if bool_decide (m_cursor w ≠ empty_xcursor g)
       then XFreeCursor (m_cursor w) srv else srv,
       set_m_cursor XNone w)
    else (srv, w) in
  if bool_decide (xcursor ≠ XNone) then
    (mkCursorState (XDefineCursor (m_window w) xcursor srv) g
                   (set_m_cursor xcursor w), true)
  else (mkCursorState srv g w, false).

Inductive NativeCursor :=
  | Hidden | Arrow | Crosshair | IBeam | Wait | Link | Help | Forbidden
  | Move | SizeN | SizeNS | SizeS | SizeW | SizeE | SizeWE
  | SizeNW | SizeNE | SizeSW | SizeSE.

(** The symbolic overload.  Every cursor but [Hidden] is a font cursor
    created by this call; the glyph it shows plays no part in the ownership
    of the handle. *)
Definition setNativeMouseCursor (cursor : NativeCursor) (st : CursorState)
    : CursorState * bool :=
  let '(mkCursorState srv g w) := st in
  match cursor with
  | Hidden =>
      let '(srv, g) :=
        if bool_decide (empty_xcursor g = XNone) then
          let '(c, srv') := XCreateCursor srv in
          (srv', set_empty_xcursor c g)
        else (srv, g) in
      let xcursor := empty_xcursor g in
      setX11Cursor xcursor (mkCursorState srv g w)
  | _ =>
      let '(xcursor, srv) := XCreateCursor srv in
      setX11Cursor xcursor (mkCursorState srv g w)
  end.

(** *** Bitmap cursors *)

Definition wrap32 (z : Z) : Z := z mod 2 ^ 32.

(** [XcursorDim] is an unsigned 32-bit integer. *)
Definition XcursorDim (z : Z) : Z := wrap32 z.

Record SurfaceFormatData := mkSurfaceFormatData {
  bitsPerPixel : Z;
  redShift : Z; greenShift : Z; blueShift : Z; alphaShift : Z;
  redMask : Z; greenMask : Z; blueMask : Z; alphaMask : Z
}.

(** A surface: its size, its format and its rows of 32-bit samples. *)
Record Surface := mkSurface {
  surface_width : Z;
  surface_height : Z;
  surface_format : SurfaceFormatData;
  surface_rows : list (list Z)
}.

(** [surface->getData(0, y)]: the samples of row [y] from its first one. *)
Definition getData (surface : Surface) (y : Z) : list Z :=
  default [] (surface_rows surface !! Z.to_nat y).

(** One channel of the sample [c]: [(c & mask) >> shift]. *)
Definition channel (c mask shift : Z) : Z := Z.shiftr (Z.land c mask) shift.

(** The value stored through [dst]: the channels of [c] in the order
    alpha, red, green, blue from the most significant byte down. *)
Definition repack (format : SurfaceFormatData) (c : Z) : Z :=
  Z.lor
    (Z.lor
       (Z.lor
          (wrap32 (Z.shiftl (channel c (alphaMask format) (alphaShift format)) 24))
          (wrap32 (Z.shiftl (channel c (redMask format) (redShift format)) 16)))
       (wrap32 (Z.shiftl (channel c (greenMask format) (greenShift format)) 8)))
    (channel c (blueMask format) (blueShift format)).

(** The inner loop over [x]: [n] iterations are left, [src] is the rest of
    the source row from the sample under the pointer, [u] counts the copies
    made of that sample and [dst] is the index written next. *)
Fixpoint fill_row (n : nat) (format : SurfaceFormatData) (scale : Z)
    (src : list Z) (u : Z) (dst : nat) (pixels : list Z) : nat * list Z :=
  match n with
  | O => (dst, pixels)
  | S n' =>
      let c := default 0 (head src) in
      let pixels := <[dst := repack format c]> pixels in
      let u := u + 1 in
      if u =? scale
      then fill_row n' format scale (tail src) 0 (S dst) pixels
      else fill_row n' format scale src u (S dst) pixels
  end.

(** The outer loop over [y]: [n] rows are left. *)
Fixpoint fill_image (n : nat) (y : Z) (w : Z) (surface : Surface)
    (scale : Z) (dst : nat) (pixels : list Z) : list Z :=
  match n with
  | O => pixels
  | S n' =>
      let src := getData surface (Z.quot y scale) in
      let '(dst, pixels) :=
        fill_row (Z.to_nat w) (surface_format surface) scale src 0 dst pixels in
      fill_image n' (y + 1) w surface scale dst pixels
  end.

(** The answers of libXcursor: whether the display supports ARGB cursors,
    the image [XcursorImageCreate] allocates for a size, if any, and
    whether [XcursorImageLoadCursor] manages to create the cursor. *)
Record Xcursor := mkXcursor {
  XcursorSupportsARGB : bool;
  XcursorImageCreate : Z → Z → option XcursorImage;
  XcursorImageLoadCursor_succeeds : bool
}.

(** The image the bitmap overload draws into: the one the window already
    has when its size fits, a newly created one otherwise (the old one is
    destroyed). *)
Definition cursor_image (lib : Xcursor) (win : WindowX11) (w h : Z)
    : option XcursorImage :=
  match m_xcursorImage win with
  | None => XcursorImageCreate lib w h
  | Some img =>
      if bool_decide (xi_width img ≠ XcursorDim w) ||
         bool_decide (xi_height img ≠ XcursorDim h)
      then XcursorImageCreate lib w h
      else Some img
  end.

(** The bitmap overload. *)
Definition setNativeMouseCursor_surface (lib : Xcursor) (surface : Surface)
    (focus : Point) (scale : Z) (st : CursorState) : CursorState * bool :=
  if negb (XcursorSupportsARGB lib) then (st, false)
  else
    let format := surface_format surface in
    if bool_decide (bitsPerPixel format ≠ 32) then (st, false)
    else
      let '(mkCursorState srv g win) := st in
      let w := scale * surface_width surface in
      let h := scale * surface_height surface in
      let xcursor := XNone in
      let image := cursor_image lib win w h in
      match image with
      | Some img =>
          let pixels :=
            fill_image (Z.to_nat h) 0 w surface scale 0%nat (xi_pixels img) in
          let img :=
            mkXcursorImage (xi_width img) (xi_height img)
              (XcursorDim (scale * px focus + Z.quot scale 2))
              (XcursorDim (scale * py focus + Z.quot scale 2))
              pixels in
          let '(xcursor, srv) :=
            if XcursorImageLoadCursor_succeeds lib then XCreateCursor srv
            else (XNone, srv) in
          setX11Cursor xcursor
            (mkCursorState srv g (set_m_xcursorImage (Some img) win))
      | None =>
          setX11Cursor xcursor
            (mkCursorState srv g (set_m_xcursorImage None win))
      end.

(** ** Native events *)

(** The fields of [XButtonEvent], [XMotionEvent] and [XCrossingEvent] that
    the translator reads.  [XButtonEvent] and [XMotionEvent] share the
    position of their [time] member, which is how the source reads the time
    of a button event through [event.xmotion.time]. *)
Record XButtonEvent := mkXButtonEvent {
  xb_time : Z; xb_x : Z; xb_y : Z; xb_state : Z; xb_button : Z
}.
Record XMotionEvent := mkXMotionEvent {
  xm_time : Z; xm_x : Z; xm_y : Z; xm_state : Z
}.
Record XCrossingEvent := mkXCrossingEvent {
  xcr_x : Z; xcr_y : Z; xcr_mode : Z; xcr_state : Z
}.

(** A key event together with what Xlib answers while it is handled:
    [xk_keysym] is the result of [XLookupKeysym], [xk_char] the first
    character decoded from [Xutf8LookupString] (if it produced one),
    [xk_filtered] the result of [XFilterEvent], and [xk_next] the type (is it
    a [KeyPress]?), time and keycode of the next queued event as seen by
    [XPeekEvent], when [XEventsQueued] reports one. *)
Record XKeyEvent := mkXKeyEvent {
  xk_time : Z; xk_state : Z; xk_keycode : Z;
  xk_keysym : Z;
  xk_char : option Z;
  xk_filtered : bool;
  xk_next : option (bool * Z * Z)
}.

Inductive XEvent :=
  (** an event claimed by the XInput extension, with the canonical event
      [convertExtensionEvent] makes of it and the time it leaves in
      [g_lastXInputEventTime] *)
  | XInputEvent (converted : Event) (time : Z)
  | ConfigureNotify (x y width height : Z)
  | Expose (x y width height : Z)
  | KeyPress (k : XKeyEvent)
  | KeyRelease (k : XKeyEvent)
  | ButtonPress (b : XButtonEvent)
  | ButtonRelease (b : XButtonEvent)
  | MotionNotify (m : XMotionEvent)
  | EnterNotify (c : XCrossingEvent)
  | LeaveNotify (c : XCrossingEvent)
  | ClientMessage (l0 : Z)
  (** a property changed; [value] holds the items [XGetWindowProperty]
      returns for [_NET_FRAME_EXTENTS], when that call succeeds *)
  | PropertyNotify (atom : Z) (value : option (list Z))
  | OtherEvent.

(** The helpers of os/x11 and the modifier constants of os/keys.h that the
    translator uses and that are declared outside window.cpp. *)
Class Platform := {
  get_modifiers_from_x : Z → Z;
  get_mouse_button_from_x : Z → MouseButton;
  x11_keysym_to_scancode : Z → Z;
  kKeyShiftModifier : Z;
  kKeyCtrlModifier : Z;
  kKeyAltModifier : Z;
  kKeyWinModifier : Z
}.

(** Modelled from the spec: [base::tick_t] and [base::current_tick] come
    from base/time.h, which is not among the sources.  Double-click detection
    is a "wall-clock timestamp comparison against a fixed threshold"; the
    tick is taken to be an unsigned 64-bit count of milliseconds, so that the
    difference of two ticks wraps. *)
Definition tick_diff (a b : Z) : Z := (a - b) mod 2 ^ 64.

Record Translated := mkTranslated {
  t_globals : Globals;
  t_window : WindowX11;
  t_effects : list Effect
}.

Section Translator.
Context `{Platform}.

Definition processKeyEvent (press : bool) (k : XKeyEvent)
    (g : Globals) (w : WindowX11) : Translated :=
  let ev := setType (if press then KeyDown else KeyUp) Event_new in
  let keysym := xk_keysym k in
  let ev := setScancode (x11_keysym_to_scancode keysym) ev in
  let ev :=
    if m_xic w then
      match xk_char k with
      | Some c => setUnicodeChar c ev
      | None => ev
      end
    else ev in
  if xk_filtered k then mkTranslated g w []
  else
    let modifiers := get_modifiers_from_x (xk_state k) in
    let '(g, modifiers) :=
      if keysym =? XK_space then
        (if press then set_g_spaceBarIsPressed true g
         else
           let g := set_g_spaceBarIsPressed false g in
           match xk_next k with
           | Some (next_is_press, next_time, next_keycode) =>
               if next_is_press && (next_time =? xk_time k) &&
                  (next_keycode =? xk_keycode k)
               then set_g_spaceBarIsPressed true g
               else g
           | None => g
           end,
         modifiers)
      else if (keysym =? XK_Shift_L) || (keysym =? XK_Shift_R) then
        (g, Z.lor modifiers kKeyShiftModifier)
      else if (keysym =? XK_Control_L) || (keysym =? XK_Control_R) then
        (g, Z.lor modifiers kKeyCtrlModifier)
      else if (keysym =? XK_Alt_L) || (keysym =? XK_Alt_R) then
        (g, Z.lor modifiers kKeyAltModifier)
      else if (keysym =? XK_Meta_L) || (keysym =? XK_Super_L) ||
              (keysym =? XK_Meta_R) || (keysym =? XK_Super_R) then
        (g, Z.lor modifiers kKeyWinModifier)
      else (g, modifiers) in
    let ev := setModifiers modifiers ev in
    mkTranslated g w [queueEvent ev].

(** [ButtonPress] and [ButtonRelease]; [now] is [base::current_tick()] as
    read while the event is handled. *)
Definition processButtonEvent (now : Z) (press : bool) (b : XButtonEvent)
    (g : Globals) (w : WindowX11) : Translated :=
  if xb_time b =? g_lastXInputEventTime g then mkTranslated g w []
  else
    let ev := Event_new in
    let finish (ev : Event) (w : WindowX11) :=
      let ev := setModifiers (get_modifiers_from_x (xb_state b)) ev in
      let ev := setPosition (mkPoint (Z.quot (xb_x b) (m_scale w))
                                     (Z.quot (xb_y b) (m_scale w))) ev in
      mkTranslated g w [queueEvent ev] in
    if is_mouse_wheel_button (xb_button b) then
      if press then
        let ev := setType MouseWheel ev in
        let ev := setWheelDelta (get_mouse_wheel_delta (xb_button b)) ev in
        finish ev w
      else mkTranslated g w []
    else
      let ev := setType (if press then MouseDown else MouseUp) ev in
      let button := get_mouse_button_from_x (xb_button b) in
      let ev := setButton button ev in
      if press then
        if bool_decide (m_doubleClickButton w = button) &&
           (tick_diff now (m_doubleClickTick w) <? LAF_X11_DOUBLE_CLICK_TIMEOUT)
        then
          let ev := setType MouseDoubleClick ev in
          finish ev (set_m_doubleClickButton NoneButton w)
        else
          finish ev (set_m_doubleClickTick now
                       (set_m_doubleClickButton button w))
      else finish ev w.

Definition processMotionNotify (m : XMotionEvent)
    (g : Globals) (w : WindowX11) : Translated :=
  if xm_time m =? g_lastXInputEventTime g then mkTranslated g w []
  else
    let w := set_m_doubleClickButton NoneButton w in
    let pos := mkPoint (Z.quot (xm_x m) (m_scale w))
                       (Z.quot (xm_y m) (m_scale w)) in
    if bool_decide (m_lastMousePos w = pos) then mkTranslated g w []
    else
      let w := set_m_lastMousePos pos w in
      let ev := setType MouseMove Event_new in
      let ev := setModifiers (get_modifiers_from_x (xm_state m)) ev in
      let ev := setPosition pos ev in
      mkTranslated g w [queueEvent ev].

(** [EnterNotify] and [LeaveNotify]. *)
Definition processCrossingEvent (enter : bool) (c : XCrossingEvent)
    (g : Globals) (w : WindowX11) : Translated :=
  let g := set_g_spaceBarIsPressed false g in
  if xcr_mode c =? NotifyNormal then
    let ev := setType (if enter then MouseEnter else MouseLeave) Event_new in
    let ev := setModifiers (get_modifiers_from_x (xcr_state c)) ev in
    let ev := setPosition (mkPoint (Z.quot (xcr_x c) (m_scale w))
                                   (Z.quot (xcr_y c) (m_scale w))) ev in
    mkTranslated g w [queueEvent ev]
  else mkTranslated g w [].

Definition processConfigureNotify (x y width height : Z)
    (g : Globals) (w : WindowX11) : Translated :=
  let rc := mkRect x y width height in
  if m_initializingFromFrame w then
    let w := set_m_initializingFromFrame false w in
    let rc := mkRect (rx rc) (ry rc)
                (rw rc - Border_width (m_frameExtents w)) (rh rc) in
    let rc := mkRect (rx rc) (ry rc) (rw rc)
                (rh rc - Border_height (m_frameExtents w)) in
    let rc := mkRect (rx rc) (ry rc) (rw rc) (rh rc + 4) in
    mkTranslated g w [XResizeWindow (rw rc) (rh rc)]
  else if (0 <? rw rc) && (0 <? rh rc) &&
          bool_decide (Rect_size rc ≠ m_lastClientSize w) then
    let w := set_m_lastClientSize (Rect_size rc) w in
    mkTranslated g w [onResize (Rect_size rc)]
  else mkTranslated g w [].

(** [PropertyNotify].  A borderless window first asks the server to replace
    the property by four zeros; [value] is what the server answers to the
    read that follows in either case. *)
Definition processPropertyNotify (atom : Z) (value : option (list Z))
    (g : Globals) (w : WindowX11) : Translated :=
  if atom =? _NET_FRAME_EXTENTS g then
    let effects :=
      if m_borderless w then
        let data := [0; 0; 0; 0] in
        [XChangeProperty (_NET_FRAME_EXTENTS g) data]
      else [] in
    match value with
    | Some [p0; p1; p2; p3] =>
        let fe := m_frameExtents w in
        let fe := mkBorder p0 (b_top fe) (b_right fe) (b_bottom fe) in
        let fe := mkBorder (b_left fe) (b_top fe) p1 (b_bottom fe) in
        let fe := mkBorder (b_left fe) p2 (b_right fe) (b_bottom fe) in
        let fe := mkBorder (b_left fe) (b_top fe) (b_right fe) p3 in
        mkTranslated g (set_m_frameExtents fe w) effects
    | _ => mkTranslated g w effects
    end
  else mkTranslated g w [].

Definition processX11Event (now : Z) (event : XEvent)
    (g : Globals) (w : WindowX11) : Translated :=
  match event with
  | XInputEvent ev time =>
      mkTranslated (set_g_lastXInputEventTime time g) w [queueEvent ev]
  | ConfigureNotify x y width height =>
      processConfigureNotify x y width height g w
  | Expose x y width height =>
      mkTranslated g w [onPaint (mkRect x y width height)]
  | KeyPress k => processKeyEvent true k g w
  | KeyRelease k => processKeyEvent false k g w
  | ButtonPress b => processButtonEvent now true b g w
  | ButtonRelease b => processButtonEvent now false b g w
  | MotionNotify m => processMotionNotify m g w
  | EnterNotify c => processCrossingEvent true c g w
  | LeaveNotify c => processCrossingEvent false c g w
  | ClientMessage l0 =>
      if l0 =? WM_DELETE_WINDOW g
      then mkTranslated g w [queueEvent (setType CloseWindow Event_new)]
      else mkTranslated g w []
  | PropertyNotify atom value => processPropertyNotify atom value g w
  | OtherEvent => mkTranslated g w []
  end.

(** The event loop delivers the native events one after the other, each
    with the tick read while it is handled. *)
Fixpoint processX11Events (events : list (Z * XEvent))
    (g : Globals) (w : WindowX11) : Translated :=
  match events with
  | [] => mkTranslated g w []
  | (now, event) :: rest =>
      let r := processX11Event now event g w in
      let r' := processX11Events rest (t_globals r) (t_window r) in
      mkTranslated (t_globals r') (t_window r') (t_effects r ++ t_effects r')
  end.

End Translator.

(** ** Several windows on one display

    The windows of the process, keyed by their native identifier, share the
    server and the globals.  A window is created under the fresh identifier
    the server returns; a cursor request goes to the window it names. *)
Record World := mkWorld {
  world_server : XServer;
  world_globals : Globals;
  world_windows : gmap Z WindowX11
}.

Inductive CursorRequest :=
  | SystemCursor (cursor : NativeCursor)
  | BitmapCursor (lib : Xcursor) (surface : Surface) (focus : Point)
                 (scale : Z).

Definition requestCursor (req : CursorRequest) (st : CursorState)
    : CursorState * bool :=
  match req with
  | SystemCursor cursor => setNativeMouseCursor cursor st
  | BitmapCursor lib surface focus scale =>
      setNativeMouseCursor_surface lib surface focus scale st
  end.

Inductive WorldAction :=
  | CreateWindow (handle : Z) (xic : bool) (tick0 : Z) (spec : WindowSpec)
  | SetCursor (handle : Z) (req : CursorRequest).

Definition world_step (W : World) (a : WorldAction) : World :=
  match a with
  | CreateWindow handle xic tick0 spec =>
      match world_windows W !! handle with
      | Some _ => W
      | None =>
          mkWorld (world_server W) (world_globals W)
            (<[handle := WindowX11_new handle xic tick0 spec]>
               (world_windows W))
      end
  | SetCursor handle req =>
      match world_windows W !! handle with
      | None => W
      | Some w =>
          let st :=
            fst (requestCursor req
                   (mkCursorState (world_server W) (world_globals W) w)) in
          mkWorld (cs_server st) (cs_globals st)
            (<[handle := cs_window st]> (world_windows W))
      end
  end.

Definition world_run (actions : list WorldAction) (W : World) : World :=
  foldl world_step W actions.

(** The process starts without windows, without cursors and without the
    hidden cursor. *)
Definition world_start (g : Globals) : World :=
  mkWorld (mkXServer ∅ 1 ∅) (set_empty_xcursor XNone g) ∅.

(** The cursor handles a window owns: its [m_cursor], unless that is [None]
    or the shared hidden cursor. *)
Definition owns (g : Globals) (w : WindowX11) (cursor : Z) : Prop :=
  m_cursor w = cursor ∧ cursor ≠ XNone ∧ cursor ≠ empty_xcursor g.

(** *** Accounting of cursor handles *)

(** The accounting of cursor handles, over the handles alive on the server,
    the next identifier, the hidden cursor [E] and the handle [cur] of each
    window: identifiers are positive and below the next one; the hidden
    cursor, once created, is alive; the handle of a window is alive; every
    live handle is the hidden cursor or the handle of some window; and a
    handle other than the hidden cursor belongs to one window only. *)
Definition accounted (live : gset Z) (next E : Z) (cur : gmap Z Z) : Prop :=
  0 < next
  ∧ (∀ c, c ∈ live → 0 < c < next)
  ∧ (E = XNone ∨ E ∈ live)
  ∧ (∀ h c, cur !! h = Some c → c = XNone ∨ c ∈ live)
  ∧ (∀ c, c ∈ live → c = E ∨ ∃ h, cur !! h = Some c)
  ∧ (∀ h1 h2 c, cur !! h1 = Some c → cur !! h2 = Some c →
       c ≠ XNone → c ≠ E → h1 = h2).

(** The same accounting between the creation of the handle [x] and its
    installation by [setX11Cursor]: [x] may be alive without a window
    holding it yet. *)
Definition pending (live : gset Z) (next E : Z) (cur : gmap Z Z) (x : Z)
    : Prop :=
  0 < next
  ∧ (∀ c, c ∈ live → 0 < c < next)
  ∧ (E = XNone ∨ E ∈ live)
  ∧ (∀ h c, cur !! h = Some c → c = XNone ∨ c ∈ live)
  ∧ (∀ c, c ∈ live → c = E ∨ c = x ∨ ∃ h, cur !! h = Some c)
  ∧ (∀ h1 h2 c, cur !! h1 = Some c → cur !! h2 = Some c →
       c ≠ XNone → c ≠ E → h1 = h2)
  ∧ (x = XNone ∨ x ∈ live)
  ∧ (x = XNone ∨ x = E ∨ ∀ h, cur !! h ≠ Some x).

(** What the release in [setX11Cursor] leaves alive. *)
Definition after_release (old E : Z) (live : gset Z) : gset Z :=
  if bool_decide (old ≠ XNone ∧ old ≠ E) then live ∖ {[old]} else live.

(** The accounting for the windows of a world. *)
Definition cursors_accounted (W : World) : Prop :=
  accounted (live_cursors (world_server W)) (next_xid (world_server W))
            (empty_xcursor (world_globals W))
            (m_cursor <$> world_windows W).

(** A request the bitmap overload turns down before it touches anything. *)
Definition rejected (req : CursorRequest) : bool :=
  match req with
  | SystemCursor _ => false
  | BitmapCursor lib surface _ _ =>
      negb (XcursorSupportsARGB lib)
      || bool_decide (bitsPerPixel (surface_format surface) ≠ 32)
  end.

(** How a cursor request that is not rejected prepares the handle it is
    about to install: nothing ([XcursorImageLoadCursor] failed), the hidden
    cursor that exists already, or a handle created by this call (which
    becomes the hidden cursor when that did not exist). *)
Definition prepared (srv : XServer) (g : Globals) (x : Z)
    (live1 : gset Z) (next1 E1 : Z) : Prop :=
  (x = XNone ∧ live1 = live_cursors srv ∧ next1 = next_xid srv
   ∧ E1 = empty_xcursor g)
  ∨ (x = empty_xcursor g ∧ empty_xcursor g ≠ XNone
     ∧ live1 = live_cursors srv ∧ next1 = next_xid srv
     ∧ E1 = empty_xcursor g)
  ∨ (x = next_xid srv ∧ live1 = {[next_xid srv]} ∪ live_cursors srv
     ∧ next1 = next_xid srv + 1
     ∧ (E1 = empty_xcursor g
        ∨ (empty_xcursor g = XNone ∧ E1 = next_xid srv))).

(** ** Concrete inputs used by the examples below *)

(** The usual assignment of X button codes, with no modifier decoded. *)
Definition sample_platform : Platform :=
  {| get_modifiers_from_x := λ _, 0;
     get_mouse_button_from_x := λ button,
       if button =? 1 then LeftButton
       else if button =? 2 then MiddleButton
       else if button =? 3 then RightButton
       else if button =? 8 then X1Button
       else if button =? 9 then X2Button
       else NoneButton;
     x11_keysym_to_scancode := λ keysym, keysym;
     kKeyShiftModifier := 1;
     kKeyCtrlModifier := 2;
     kKeyAltModifier := 4;
     kKeyWinModifier := 32 |}.

Definition sample_globals : Globals :=
  {| WM_DELETE_WINDOW := 301;
     _NET_FRAME_EXTENTS := 302;
     _NET_WM_STATE := 303;
     empty_xcursor := XNone;
     g_lastXInputEventTime := 0;
     g_spaceBarIsPressed := false |}.

Definition sample_spec (scale : Z) : WindowSpec :=
  {| spec_frame := None;
     spec_contentRect := mkRect 0 0 640 480;
     spec_scale := scale;
     spec_borderless := false |}.

Definition sample_window (scale : Z) : WindowX11 :=
  WindowX11_new 77 false 0 (sample_spec scale).

Definition sample_geometry : XGeometry := mkXGeometry 100 50 640 480.

(** A press of the left button at device position (10, 20), stamped 5000. *)
Definition left_press : XButtonEvent :=
  {| xb_time := 5000; xb_x := 10; xb_y := 20; xb_state := 0; xb_button := 1 |}.

(** The RGBA8888 layout. *)
Definition sample_format : SurfaceFormatData :=
  {| bitsPerPixel := 32;
     redShift := 0; greenShift := 8; blueShift := 16; alphaShift := 24;
     redMask := 0xFF; greenMask := 0xFF00; blueMask := 0xFF0000;
     alphaMask := 0xFF000000 |}.

(** A 2×2 surface in the RGBA8888 layout (red in the low byte, alpha in the
    high byte) whose four samples are opaque red. *)
Definition red_surface : Surface :=
  mkSurface 2 2 sample_format
    [[0xFF0000FF; 0xFF0000FF]; [0xFF0000FF; 0xFF0000FF]].


(** A fresh server and a fresh window. *)
Definition sample_cursor_state : CursorState :=
  mkCursorState (mkXServer ∅ 1 ∅) sample_globals (sample_window 1).

(** ** Projections used in the statements *)

(** The types of the canonical events among the effects. *)
Definition queued_types (effects : list Effect) : list EventType :=
  ev_type <$> queued effects.

(** The time stamp of a core pointer event. *)
Definition core_pointer_time (event : XEvent) : option Z :=
  match event with
  | ButtonPress b | ButtonRelease b => Some (xb_time b)
  | MotionNotify m => Some (xm_time m)
  | _ => None
  end.

(** The device position carried by a native pointer event. *)
Definition native_position (event : XEvent) : option (Z * Z) :=
  match event with
  | ButtonPress b | ButtonRelease b => Some (xb_x b, xb_y b)
  | MotionNotify m => Some (xm_x m, xm_y m)
  | EnterNotify c | LeaveNotify c => Some (xcr_x c, xcr_y c)
  | _ => None
  end.

(** A surface whose rows are all there and all of the declared width. *)
Definition Surface_wf (surface : Surface) : Prop :=
  0 ≤ surface_width surface
  ∧ 0 ≤ surface_height surface
  ∧ length (surface_rows surface) = Z.to_nat (surface_height surface)
  ∧ Forall (λ row, length row = Z.to_nat (surface_width surface))
           (surface_rows surface).

(** The sample of the surface at column [x] of row [y]. *)
Definition Surface_pixel (surface : Surface) (x y : Z) : option Z :=
  surface_rows surface !! Z.to_nat y ≫= λ row, row !! Z.to_nat x.





(** The press of an ordinary button completes a double-click when the
    button is the one being tracked and less than the timeout has passed. *)
Definition completes_double_click {P : Platform} (now : Z)
    (b : XButtonEvent) (w : WindowX11) : bool :=
  bool_decide (m_doubleClickButton w = get_mouse_button_from_x (xb_button b))
  && (tick_diff now (m_doubleClickTick w) <? LAF_X11_DOUBLE_CLICK_TIMEOUT).

(** Does the double-click tracking see the event?  The lines that write
    [m_doubleClickButton] are reached by the press of an ordinary button and
    by the pointer motion, and only when the event is translated, that is,
    not dropped as the duplicate of an XInput event. *)
Definition seen_by_double_click (g : Globals) (event : XEvent) : bool :=
  match event with
  | ButtonPress b =>
      negb (xb_time b =? g_lastXInputEventTime g)
      && negb (is_mouse_wheel_button (xb_button b))
  | MotionNotify m => negb (xm_time m =? g_lastXInputEventTime g)
  | _ => false
  end.

(** None of the events is seen by the tracking, each one tested against
    the globals of the moment it is handled. *)
Fixpoint unseen_by_double_click {P : Platform} (events : list (Z * XEvent))
    (g : Globals) (w : WindowX11) : bool :=
  match events with
  | [] => true
  | (now, event) :: rest =>
      let r := processX11Event now event g w in
      negb (seen_by_double_click g event)
      && unseen_by_double_click rest (t_globals r) (t_window r)
  end.

(** Does the event come between two presses of [button]?  A translated
    motion does, and so does the translated press of an ordinary button
    that is not [button]. *)
Definition interrupts_double_click {P : Platform} (button : MouseButton)
    (g : Globals) (event : XEvent) : bool :=
  match event with
  | ButtonPress b =>
      seen_by_double_click g event
      && bool_decide (get_mouse_button_from_x (xb_button b) ≠ button)
  | MotionNotify m => seen_by_double_click g event
  | _ => false
  end.

(** The right button, pressed where [left_press] was. *)
Definition right_press : XButtonEvent :=
  {| xb_time := 5000; xb_x := 10; xb_y := 20; xb_state := 0; xb_button := 3 |}.

(** Is the event the notification of a change of [_NET_FRAME_EXTENTS]? *)
Definition is_frame_extents_notify (g : Globals) (event : XEvent) : bool :=
  match event with
  | PropertyNotify atom _ => atom =? _NET_FRAME_EXTENTS g
  | _ => false
  end.

(** ** The rest of the window: scale, pointer, title, icons and the
    window-manager requests *)

Definition set_m_scale (v : Z) (w : WindowX11) : WindowX11 :=
  mkWindowX11 (m_window w) (m_cursor w) (m_xcursorImage w) (m_xic w) v
    (m_lastMousePos w) (m_lastClientSize w) (m_fullScreen w)
    (m_doubleClickButton w) (m_doubleClickTick w) (m_borderless w)
    (m_frameExtents w) (m_initializingFromFrame w).

(** [setScale]: the resize callback is given [clientSize()] as the server
    reports it. *)
Definition setScale (scale : Z) (srv : XGeometry) (w : WindowX11)
    : WindowX11 * list Effect :=
  let w := set_m_scale scale w in
  (w, [onResize (clientSize srv w)]).

Inductive PropMode := PropModeReplace | PropModeAppend.

(** The requests to the X server made by the functions of this part, beside
    the ones recorded as [Effect]s.  [XSendEvent5] is an [XSendEvent] whose
    message uses the fifth long of its data. *)
Inductive XRequest :=
  | XUngrabPointer
  | XWarpPointer (src_x src_y src_width src_height dest_x dest_y : Z)
  | XSendEvent5 (message : XClientMessage) (l4 : Z)
  | XChangePropertyMode (property : Z) (mode : PropMode) (data : list Z)
  | XSetWMName (value : list Z) (nitems : Z).

Definition releaseMouse : list XRequest := [XUngrabPointer].

(** [setMousePosition]: [srv] is the answer to [XGetGeometry]. *)
Definition setMousePosition (position : Point) (srv : XGeometry)
    (w : WindowX11) : list XRequest :=
  [XWarpPointer 0 0 (geo_width srv) (geo_height srv)
     (px position * m_scale w) (py position * m_scale w)].

(** *** Maximize *)

(** The loop of [isMaximized] over the items of the property. *)
Fixpoint isMaximized_loop (prop : list Z) (vert horz : Z) (result : bool)
    : bool :=
  match prop with
  | [] => result
  | item :: rest =>
      let result :=
        if (item =? vert) || (item =? horz) then true else result in
      isMaximized_loop rest vert horz result
  end.

(** [isMaximized]: [vert] and [horz] are the atoms
    [_NET_WM_STATE_MAXIMIZED_VERT] and [_NET_WM_STATE_MAXIMIZED_HORZ], and
    [reply] holds the items [XGetWindowProperty] returns for [_NET_WM_STATE]
    when the call succeeds. *)
Definition isMaximized (vert horz : Z) (reply : option (list Z)) : bool :=
  let result := false in
  match reply with
  | Some prop => isMaximized_loop prop vert horz result
  | None => result
  end.

Definition maximize (g : Globals) (vert horz : Z) (reply : option (list Z))
    (w : WindowX11) : list Effect :=
  let event :=
    {| xc_window := m_window w;
       xc_message_type := _NET_WM_STATE g;
       xc_format := 32;
       xc_l0 := if isMaximized vert horz reply
                then _NET_WM_STATE_REMOVE else _NET_WM_STATE_ADD;
       xc_l1 := vert;
       xc_l2 := horz;
       xc_l3 := 0 |} in
  [XSendEvent event].

(** *** Interactive move and resize *)

Definition _NET_WM_MOVERESIZE_SIZE_TOPLEFT : Z := 0.
Definition _NET_WM_MOVERESIZE_SIZE_TOP : Z := 1.
Definition _NET_WM_MOVERESIZE_SIZE_TOPRIGHT : Z := 2.
Definition _NET_WM_MOVERESIZE_SIZE_RIGHT : Z := 3.
Definition _NET_WM_MOVERESIZE_SIZE_BOTTOMRIGHT : Z := 4.
Definition _NET_WM_MOVERESIZE_SIZE_BOTTOM : Z := 5.
Definition _NET_WM_MOVERESIZE_SIZE_BOTTOMLEFT : Z := 6.
Definition _NET_WM_MOVERESIZE_SIZE_LEFT : Z := 7.
Definition _NET_WM_MOVERESIZE_MOVE : Z := 8.
Definition _NET_WM_MOVERESIZE_SIZE_KEYBOARD : Z := 9.
Definition _NET_WM_MOVERESIZE_MOVE_KEYBOARD : Z := 10.
Definition _NET_WM_MOVERESIZE_CANCEL : Z := 11.

Module WindowAction.
Inductive t :=
  | Cancel | Move
  | ResizeFromTopLeft | ResizeFromTop | ResizeFromTopRight
  | ResizeFromLeft | ResizeFromRight
  | ResizeFromBottomLeft | ResizeFromBottom | ResizeFromBottomRight.
End WindowAction.

Global Instance WindowAction_eq_dec : EqDecision WindowAction.t.
Proof. solve_decision. Defined.

(** The [switch] of [performWindowAction]. *)
Definition moveresize_direction (action : WindowAction.t) : Z :=
  let direction := 0 in
  match action with
  | WindowAction.Cancel => _NET_WM_MOVERESIZE_CANCEL
  | WindowAction.Move => _NET_WM_MOVERESIZE_MOVE
  | WindowAction.ResizeFromTopLeft => _NET_WM_MOVERESIZE_SIZE_TOPLEFT
  | WindowAction.ResizeFromTop => _NET_WM_MOVERESIZE_SIZE_TOP
  | WindowAction.ResizeFromTopRight => _NET_WM_MOVERESIZE_SIZE_TOPRIGHT
  | WindowAction.ResizeFromLeft => _NET_WM_MOVERESIZE_SIZE_LEFT
  | WindowAction.ResizeFromRight => _NET_WM_MOVERESIZE_SIZE_RIGHT
  | WindowAction.ResizeFromBottomLeft => _NET_WM_MOVERESIZE_SIZE_BOTTOMLEFT
  | WindowAction.ResizeFromBottom => _NET_WM_MOVERESIZE_SIZE_BOTTOM
  | WindowAction.ResizeFromBottomRight => _NET_WM_MOVERESIZE_SIZE_BOTTOMRIGHT
  end.

(** [performWindowAction].  [moveresize_atom] is the answer of [XInternAtom]
    for "_NET_WM_MOVERESIZE", [get_x_mouse_button_from_event] the helper of
    os/x11 of that name and [translate] the translation of window
    coordinates into root coordinates by [XTranslateCoordinates].  An event
    whose position or button was never set reads as the point (0, 0) and as
    [NoneButton]. *)
Definition performWindowAction (moveresize_atom : Z)
    (get_x_mouse_button_from_event : MouseButton → Z)
    (translate : Z → Z → Z * Z)
    (action : WindowAction.t) (ev : option Event) (w : WindowX11)
    : list XRequest :=
  if moveresize_atom =? XNone then []
  else
    let x := match ev with
             | Some e => px (default (mkPoint 0 0) (ev_position e))
             | None => 0
             end in
    let y := match ev with
             | Some e => py (default (mkPoint 0 0) (ev_position e))
             | None => 0
             end in
    let button := match ev with
                  | Some e =>
                      get_x_mouse_button_from_event
                        (default NoneButton (ev_button e))
                  | None => 0
                  end in
    let direction := moveresize_direction action in
    let released :=
      if bool_decide (direction ≠ _NET_WM_MOVERESIZE_CANCEL)
      then releaseMouse else [] in
    let '(x, y) := translate x y in
    let event :=
      {| xc_window := m_window w;
         xc_message_type := moveresize_atom;
         xc_format := 32;
         xc_l0 := x;
         xc_l1 := y;
         xc_l2 := direction;
         xc_l3 := button |} in
    released ++ [XSendEvent5 event 0].

(** *** Title

    A [std::string] is the list of its characters; the character 0 ends a C
    string. *)

(** [std::strlen] on [s.c_str()]: the characters before the first 0. *)
Fixpoint strlen (s : list Z) : nat :=
  match s with
  | [] => O
  | c :: rest => if c =? 0 then O else S (strlen rest)
  end.

(** The [std::string] built from a pointer to characters that a 0 ends:
    [value] is followed by the terminating 0 that [c_str()] and Xlib
    append. *)
Fixpoint string_of_c_str (value : list Z) : list Z :=
  match value with
  | [] => []
  | c :: rest => if c =? 0 then [] else c :: string_of_c_str rest
  end.

Definition setTitle (title : list Z) : list XRequest :=
  [XSetWMName title (Z.of_nat (strlen title))].

(** [title]: [reply] is the value of the property when [XGetWMName]
    succeeds and returns one. *)
Definition title (reply : option (list Z)) : list Z :=
  match reply with
  | None => []
  | Some value => string_of_c_str value
  end.

(** The server keeps the first [nitems] characters of the value given to
    [XSetWMName] as the name of the window; other requests leave the name
    alone. *)
Definition wm_name_after (req : XRequest) (name : option (list Z))
    : option (list Z) :=
  match req with
  | XSetWMName value nitems => Some (take (Z.to_nat nitems) value)
  | _ => name
  end.

(** *** Icons *)

(** The value stored for one sample of an icon. *)
Definition icon_pixel (format : SurfaceFormatData) (c : Z) : Z :=
  Z.lor
    (Z.lor
       (Z.lor
          (channel c (blueMask format) (blueShift format))
          (wrap32 (Z.shiftl (channel c (greenMask format) (greenShift format)) 8)))
       (wrap32 (Z.shiftl (channel c (redMask format) (redShift format)) 16)))
    (wrap32 (Z.shiftl (channel c (alphaMask format) (alphaShift format)) 24)).

(** The loop over [x]: [n] columns are left, [p] is the rest of the row from
    the sample under the pointer and [i] the index written next. *)
Fixpoint icon_row (n : nat) (format : SurfaceFormatData) (p : list Z)
    (i : nat) (data : list Z) : nat * list Z :=
  match n with
  | O => (i, data)
  | S n' =>
      let c := default 0 (head p) in
      let data := <[i := icon_pixel format c]> data in
      icon_row n' format (tail p) (S i) data
  end.

(** The loop over [y]: [n] rows are left. *)
Fixpoint icon_rows (n : nat) (y : Z) (w : Z) (icon : Surface) (i : nat)
    (data : list Z) : list Z :=
  match n with
  | O => data
  | S n' =>
      let p := getData icon y in
      let '(i, data) :=
        icon_row (Z.to_nat w) (surface_format icon) p i data in
      icon_rows n' (y + 1) w icon i data
  end.

(** The vector sent for one icon: width, height, then the samples. *)
Definition icon_data (icon : Surface) : list Z :=
  let w := surface_width icon in
  let h := surface_height icon in
  let data := replicate (Z.to_nat (w * h + 2)) 0 in
  let i := 0%nat in
  let data := <[i := w]> data in
  let i := S i in
  let data := <[i := h]> data in
  let i := S i in
  icon_rows (Z.to_nat h) 0 w icon i data.

(** The loop over the icons. *)
Fixpoint setIcons_loop (icon_atom : Z) (icons : list Surface) (first : bool)
    : list XRequest :=
  match icons with
  | [] => []
  | icon :: rest =>
      XChangePropertyMode icon_atom
        (if first then PropModeReplace else PropModeAppend)
        (icon_data icon)
      :: setIcons_loop icon_atom rest false
  end.

(** [setIcons]: [icon_atom] is the answer of [XInternAtom] for
    "_NET_WM_ICON". *)
Definition setIcons (icon_atom : Z) (icons : list Surface) (w : WindowX11)
    : list XRequest :=
  if m_window w =? XNone then []
  else setIcons_loop icon_atom icons true.

(** What a property holds after a request: a replacement discards the old
    items, an append keeps them in front. *)
Definition property_after (property : Z) (req : XRequest) (old : list Z)
    : list Z :=
  match req with
  | XChangePropertyMode p mode data =>
      if p =? property then
        match mode with
        | PropModeReplace => data
        | PropModeAppend => old ++ data
        end
      else old
  | _ => old
  end.

(** *** Construction and destruction with the registry *)

(** The constructor as seen from the registry: it throws when
    [XCreateWindow] returns no window, before anything is registered, and
    otherwise ends by registering the new object, at address [this_], under
    its handle. *)
Inductive Constructed :=
  | Thrown
  | Built (w : WindowX11) (registry : Asserted (gmap Z Z)).

Definition WindowX11_construct (checked : bool) (this_ handle : Z)
    (xic : bool) (tick0 : Z) (spec : WindowSpec)
    (g_activeWindows : gmap Z Z) : Constructed :=
  if handle =? XNone then Thrown
  else
    let w := WindowX11_new handle xic tick0 spec in
    Built w (addWindow checked (mkWindowRef this_ (m_window w))
               g_activeWindows).

(** The destructor as seen from the registry. *)
Definition WindowX11_destroy (checked : bool) (this_ : Z) (w : WindowX11)
    (g_activeWindows : gmap Z Z) : Asserted (gmap Z Z) :=
  removeWindow checked (mkWindowRef this_ (m_window w)) g_activeWindows.

(** *** Projections for the statements about this part *)

(** The sizes given to the resize callback, in order. *)
Definition resizes (effects : list Effect) : list Size :=
  omap (λ e, match e with onResize size => Some size | _ => None end) effects.

(** The [XResizeWindow] requests, in order. *)
Definition resize_requests (effects : list Effect) : list (Z * Z) :=
  omap (λ e, match e with XResizeWindow w h => Some (w, h) | _ => None end)
       effects.

(** The positions of the [MouseMove] events queued, in order. *)
Definition moves (effects : list Effect) : list Point :=
  omap (λ ev, if bool_decide (ev_type ev = MouseMove)
              then ev_position ev else None)
       (queued effects).

(** No two neighbours of the list are equal. *)
Fixpoint adjacent_distinct {A} (l : list A) : Prop :=
  match l with
  | a :: (b :: _) as rest => a ≠ b ∧ adjacent_distinct rest
  | _ => True
  end.

Definition is_XInputEvent (event : XEvent) : bool :=
  match event with XInputEvent _ _ => true | _ => false end.

(** The modifier bit a key stands for, when it is a modifier key. *)
Definition own_modifier {P : Platform} (keysym : Z) : option Z :=
  if (keysym =? XK_Shift_L) || (keysym =? XK_Shift_R)
  then Some kKeyShiftModifier
  else if (keysym =? XK_Control_L) || (keysym =? XK_Control_R)
  then Some kKeyCtrlModifier
  else if (keysym =? XK_Alt_L) || (keysym =? XK_Alt_R)
  then Some kKeyAltModifier
  else if (keysym =? XK_Meta_L) || (keysym =? XK_Super_L) ||
          (keysym =? XK_Meta_R) || (keysym =? XK_Super_R)
  then Some kKeyWinModifier
  else None.

(** A surface of three rows of two samples in the RGBA8888 layout. *)
Definition sample_icon : Surface :=
  mkSurface 2 3 sample_format
    [[0xFF0000FF; 0xFF00FF00]; [0xFFFF0000; 0x80FFFFFF]; [0; 0x01020304]].


(** The cases of a statement that holds with its first alternative for
    every event but the one a proof is about. *)
Ltac other_events :=
  unfold processKeyEvent, processButtonEvent, processMotionNotify,
    processCrossingEvent, processPropertyNotify, processConfigureNotify;
  repeat case_match; by left.

(** ** Proof tools *)

(** A goal about the members of a queue that holds at most one event. *)
Ltac one_queued Hin :=
  simpl in Hin;
  first [ by apply elem_of_nil in Hin
        | apply list_elem_of_singleton in Hin; subst; reflexivity ].

(** The proofs about cursor requests reason on [setX11Cursor] through its
    effect, not through its body. *)
#[local] Arguments setX11Cursor : simpl never.

(** * Properties *)

(** ** The registry *)

Lemma addWindow_fresh checked window (reg : gmap Z Z) :
  reg !! x11window window = None →
  addWindow checked window reg
  = Done (<[x11window window := this window]> reg).
Proof.
  intros Hfree. unfold addWindow, ASSERT.
  rewrite bool_decide_eq_true_2 by done.
  by rewrite andb_false_r.
Qed.

(** C4, as amended: the registry holds at most one window per native
    identifier.  In a build that checks assertions, registering a window
    under an identifier that is already registered trips the assertion and
    the registry stays as it was.  Removing a window whose identifier is
    not registered trips the assertion when assertions are checked and does
    nothing when they are not: in both cases the registry stays as it was.
    A registration under a free identifier goes through in either build,
    makes the identifier resolve to that window and leaves every other
    identifier alone. *)
Theorem registry_insert_remove_guarded :
  ∀ (reg : gmap Z Z) (dup stray : WindowRef),
    is_Some (reg !! x11window dup) →
    reg !! x11window stray = None →
    addWindow true dup reg = AssertionFailed reg
    ∧ (∀ checked,
         removeWindow checked stray reg
         = if checked then AssertionFailed reg else Done reg)
    ∧ (∀ checked, ∃ reg',
         addWindow checked stray reg = Done reg'
         ∧ getPointerFromHandle reg' (x11window stray) = Some (this stray)
         ∧ ∀ handle, handle ≠ x11window stray →
             getPointerFromHandle reg' handle
             = getPointerFromHandle reg handle).
Proof.
  intros reg dup stray [other Hdup] Hstray. split_and!.
  - unfold addWindow, ASSERT. rewrite Hdup.
    by rewrite bool_decide_eq_false_2.
  - intros checked. unfold removeWindow, ASSERT. rewrite Hstray.
    rewrite bool_decide_eq_false_2 by (intros Hne; by apply Hne).
    by destruct checked.
  - intros checked. eexists. split; [by apply addWindow_fresh|].
    unfold getPointerFromHandle. split.
    + apply lookup_insert_eq.
    + intros handle Hne. by apply lookup_insert_ne.
Qed.

Lemma registry_insert_remove_guarded_witness :
  addWindow true (mkWindowRef 9002 77) {[ 77 := 9001 ]}
  = AssertionFailed ({[ 77 := 9001 ]} : gmap Z Z)
  ∧ ∀ checked,
      removeWindow checked (mkWindowRef 9003 78) {[ 77 := 9001 ]}
      = if checked then AssertionFailed ({[ 77 := 9001 ]} : gmap Z Z)
        else Done {[ 77 := 9001 ]}.
Proof.
  destruct (registry_insert_remove_guarded
              {[ 77 := 9001 ]} (mkWindowRef 9002 77) (mkWindowRef 9003 78))
    as (Hadd & Hremove & _).
  - by exists 9001.
  - reflexivity.
  - split; [exact Hadd | exact Hremove].
Defined.

(** C4, as stated, fails in a build that does not check assertions: the
    assignment that follows the [ASSERT] in [addWindow] is not guarded by
    anything else.  Identifier 77 is registered for the window at 9001;
    registering the window at 9002 under 77 runs to its end, and 77 then
    resolves to 9002: the entry was replaced by a distinct window. *)
Lemma unchecked_duplicate_insert_counterexample :
  let reg : gmap Z Z := {[ 77 := 9001 ]} in
  let reg' : gmap Z Z := {[ 77 := 9002 ]} in
  getPointerFromHandle reg 77 = Some 9001
  ∧ addWindow false (mkWindowRef 9002 77) reg = Done reg'
  ∧ getPointerFromHandle reg' 77 = Some 9002
  ∧ 9001 ≠ 9002.
Proof.
  cbv zeta. split_and!; done.
Qed.

(** ** Fullscreen *)

Lemma setFullscreen_same g atom state w :
  isFullscreen w = state → setFullscreen g atom state w = (w, []).
Proof.
  intros Heq. unfold setFullscreen. by rewrite bool_decide_eq_true_2.
Qed.

Lemma setFullscreen_no_atoms g atom state w :
  _NET_WM_STATE g = XNone ∨ atom = XNone →
  setFullscreen g atom state w = (w, []).
Proof.
  intros Hnone. unfold setFullscreen. case_bool_decide; [done|].
  destruct Hnone as [-> | ->]; [done|].
  by rewrite orb_true_r.
Qed.

Lemma setFullscreen_toggle g atom state w :
  isFullscreen w ≠ state → _NET_WM_STATE g ≠ XNone → atom ≠ XNone →
  setFullscreen g atom state w
  = (set_m_fullScreen state w,
     [XSendEvent
        (mkXClientMessage (m_window w) (_NET_WM_STATE g) 32
           (if state then _NET_WM_STATE_ADD else _NET_WM_STATE_REMOVE)
           atom 0 0)]).
Proof.
  intros Hne Hs Ha. unfold setFullscreen.
  rewrite bool_decide_eq_false_2 by done.
  apply Z.eqb_neq in Hs, Ha. by rewrite Hs, Ha.
Qed.

(** C5, as amended: [setFullscreen(state)] does nothing (no message, the
    window unchanged) when the cached flag already equals [state], and also
    when the [_NET_WM_STATE] or the [_NET_WM_STATE_FULLSCREEN] atom is not
    available.  Otherwise it sends exactly one [_NET_WM_STATE] message (add
    for true, remove for false) and sets the cached flag to [state] at once.
    A second call with the same state never sends anything; with both atoms
    available, two calls of [setFullscreen(true)] on a window whose flag is
    false send exactly one message and leave the flag true. *)
Theorem setFullscreen_cached_toggle :
  ∀ (g : Globals) (atom : Z) (state : bool) (w : WindowX11),
    (isFullscreen w = state → setFullscreen g atom state w = (w, []))
    ∧ (_NET_WM_STATE g = XNone ∨ atom = XNone →
       setFullscreen g atom state w = (w, []))
    ∧ (isFullscreen w ≠ state → _NET_WM_STATE g ≠ XNone → atom ≠ XNone →
       ∃ message,
         setFullscreen g atom state w
         = (set_m_fullScreen state w, [XSendEvent message])
         ∧ xc_message_type message = _NET_WM_STATE g
         ∧ xc_l0 message
           = (if state then _NET_WM_STATE_ADD else _NET_WM_STATE_REMOVE)
         ∧ xc_l1 message = atom)
    ∧ setFullscreen_twice g atom state state w = setFullscreen g atom state w
    ∧ (isFullscreen w = false → _NET_WM_STATE g ≠ XNone → atom ≠ XNone →
       let r := setFullscreen_twice g atom true true w in
       length (sent (snd r)) = 1%nat ∧ isFullscreen (fst r) = true).
Proof.
  intros g atom state w.
  split; [apply setFullscreen_same|].
  split; [apply setFullscreen_no_atoms|].
  split.
  { intros Hne Hs Ha. eexists. split; [by apply setFullscreen_toggle|].
    done. }
  split.
  - unfold setFullscreen_twice.
    destruct (decide (isFullscreen w = state)) as [Heq|Hne].
    { rewrite !(setFullscreen_same _ _ _ _ Heq). done. }
    destruct (decide (_NET_WM_STATE g = XNone ∨ atom = XNone)) as [Hno|Hyes].
    { rewrite !(setFullscreen_no_atoms _ _ _ _ Hno). done. }
    assert (_NET_WM_STATE g ≠ XNone ∧ atom ≠ XNone) as [Hs Ha].
    { split; intros ?; apply Hyes; auto. }
    rewrite (setFullscreen_toggle _ _ _ _ Hne Hs Ha).
    rewrite setFullscreen_same by done.
    by rewrite app_nil_r.
  - intros Hoff Hs Ha. unfold setFullscreen_twice.
    rewrite (setFullscreen_toggle g atom true w) by (done || by rewrite Hoff).
    rewrite setFullscreen_same by done. done.
Qed.

Lemma setFullscreen_cached_toggle_witness :
  setFullscreen sample_globals 304 false (sample_window 1)
  = (sample_window 1, [])
  ∧ length (sent (snd (setFullscreen_twice sample_globals 304 true true
                         (sample_window 1)))) = 1%nat.
Proof.
  destruct (setFullscreen_cached_toggle sample_globals 304 false
              (sample_window 1)) as (Hsame & _).
  destruct (setFullscreen_cached_toggle sample_globals 304 true
              (sample_window 1)) as (_ & _ & _ & _ & Htwice).
  split.
  - apply Hsame. reflexivity.
  - apply Htwice; [reflexivity | discriminate | discriminate].
Defined.

(** C5, as stated, fails when an atom is missing: with
    [_NET_WM_STATE_FULLSCREEN] unavailable ([XInternAtom] answered [None])
    a window that is not fullscreen gets no message at all from two calls of
    [setFullscreen(true)], and its flag stays false. *)
Lemma setFullscreen_without_atom_counterexample :
  let r := setFullscreen_twice sample_globals XNone true true
             (sample_window 1) in
  isFullscreen (sample_window 1) = false
  ∧ sent (snd r) = []
  ∧ isFullscreen (fst r) = false
  ∧ ¬ (length (sent (snd r)) = 1%nat ∧ isFullscreen (fst r) = true).
Proof.
  cbv zeta. repeat split.
  intros [Hlen _]. vm_compute in Hlen. discriminate.
Qed.

(** ** The event translator *)

Lemma Rect_enlarge_default rc : Rect_enlarge rc Border_default = rc.
Proof.
  destruct rc as [x y w h]. unfold Rect_enlarge, Border_default. simpl.
  f_equal; lia.
Qed.

(** No native event changes the atoms cached in the globals. *)
Lemma processX11Event_atoms {P : Platform} now event g w :
  _NET_FRAME_EXTENTS (t_globals (processX11Event now event g w))
  = _NET_FRAME_EXTENTS g.
Proof.
  destruct event; simpl; try done.
  - unfold processConfigureNotify. repeat case_match; done.
  - unfold processKeyEvent. repeat case_match; simplify_eq; done.
  - unfold processKeyEvent. repeat case_match; simplify_eq; done.
  - unfold processButtonEvent. repeat case_match; done.
  - unfold processButtonEvent. repeat case_match; done.
  - unfold processMotionNotify. repeat case_match; done.
  - unfold processCrossingEvent. repeat case_match; done.
  - unfold processCrossingEvent. repeat case_match; done.
  - case_match; done.
  - unfold processPropertyNotify. repeat case_match; done.
Qed.

(** Only the frame-extents notification changes the insets. *)
Lemma processX11Event_insets {P : Platform} now event g w :
  is_frame_extents_notify g event = false →
  m_frameExtents (t_window (processX11Event now event g w))
  = m_frameExtents w.
Proof.
  intros Hnot. destruct event; simpl in *; try done.
  - unfold processConfigureNotify. repeat case_match; done.
  - unfold processKeyEvent. repeat case_match; done.
  - unfold processKeyEvent. repeat case_match; done.
  - unfold processButtonEvent. repeat case_match; done.
  - unfold processButtonEvent. repeat case_match; done.
  - unfold processMotionNotify. repeat case_match; done.
  - unfold processCrossingEvent. repeat case_match; done.
  - unfold processCrossingEvent. repeat case_match; done.
  - case_match; done.
  - unfold processPropertyNotify. by rewrite Hnot.
Qed.

Lemma processX11Events_insets {P : Platform} events g w :
  Forall (λ e, is_frame_extents_notify g e.2 = false) events →
  m_frameExtents (t_window (processX11Events events g w)) = m_frameExtents w.
Proof.
  revert g w. induction events as [|[now event] rest IH]; intros g w Hall.
  - done.
  - inversion Hall as [|? ? Hhead Hrest]; subst. simpl in *.
    rewrite IH.
    + by apply processX11Event_insets.
    + eapply Forall_impl; [exact Hrest|].
      intros [now' e] He. simpl in *.
      destruct e; try done. simpl in *.
      by rewrite processX11Event_atoms.
Qed.

(** C1: in every state of a window, [frame()] is [contentRect()] enlarged
    by the insets known at that moment, [m_frameExtents].  A window that has
    been constructed and has handled any sequence of native events none of
    which is the frame-extents notification still has zero insets, so its
    frame is its content rectangle; and once a notification delivers the
    four values left, right, top, bottom, the frame is the content rectangle
    grown by exactly these. *)
Theorem frame_is_contentRect_enlarged {P : Platform} :
  ∀ (srv : XGeometry),
    (∀ w, frame srv w = Rect_enlarge (contentRect srv w) (m_frameExtents w))
    ∧ (∀ handle xic tick0 spec g events,
         Forall (λ e, is_frame_extents_notify g e.2 = false) events →
         let w := t_window (processX11Events events g
                              (WindowX11_new handle xic tick0 spec)) in
         m_frameExtents w = Border_default
         ∧ frame srv w = contentRect srv w)
    ∧ (∀ now g w left right top bottom,
         let w' := t_window
                     (processX11Event now
                        (PropertyNotify (_NET_FRAME_EXTENTS g)
                           (Some [left; right; top; bottom])) g w) in
         frame srv w'
         = mkRect (geo_root_x srv - left) (geo_root_y srv - top)
                  (geo_width srv + (left + right))
                  (geo_height srv + (top + bottom))).
Proof.
  intros srv. split; [done|]. split.
  - intros handle xic tick0 spec g events Hall w.
    assert (m_frameExtents w = Border_default) as Hzero.
    { unfold w. by rewrite processX11Events_insets. }
    split; [done|].
    unfold frame. rewrite Hzero. apply Rect_enlarge_default.
  - intros now g w left right top bottom. simpl.
    unfold processPropertyNotify. rewrite Z.eqb_refl. done.
Qed.

Lemma frame_is_contentRect_enlarged_witness :
  let w := t_window
             (processX11Events (H := sample_platform)
                [(10, ConfigureNotify 100 50 640 480);
                 (20, MotionNotify (mkXMotionEvent 6000 30 40 0))]
                sample_globals (sample_window 2)) in
  m_frameExtents w = Border_default
  ∧ frame sample_geometry w = mkRect 100 50 640 480.
Proof.
  destruct (frame_is_contentRect_enlarged (P := sample_platform)
              sample_geometry) as (_ & Hfresh & _).
  apply (Hfresh 77 false 0 (sample_spec 2) sample_globals).
  repeat constructor.
Defined.

(** C9: a [ButtonPress], [ButtonRelease] or [MotionNotify] whose time stamp
    equals [g_lastXInputEventTime] is dropped: nothing is queued, no other
    effect happens, and neither the window (double-click tracking, last
    pointer position) nor the globals change. *)
Theorem xinput_duplicate_is_dropped {P : Platform} :
  ∀ (now : Z) (event : XEvent) (g : Globals) (w : WindowX11),
    core_pointer_time event = Some (g_lastXInputEventTime g) →
    processX11Event now event g w = mkTranslated g w [].
Proof.
  intros now event g w Htime.
  destruct event; simpl in Htime; simplify_eq; simpl.
  - unfold processButtonEvent. by rewrite Htime, Z.eqb_refl.
  - unfold processButtonEvent. by rewrite Htime, Z.eqb_refl.
  - unfold processMotionNotify. by rewrite Htime, Z.eqb_refl.
Qed.

Lemma xinput_duplicate_is_dropped_witness :
  processX11Event (H := sample_platform) 1234
    (ButtonPress (mkXButtonEvent 0 10 20 0 1))
    sample_globals (sample_window 1)
  = mkTranslated sample_globals (sample_window 1) [].
Proof.
  apply (xinput_duplicate_is_dropped (P := sample_platform)).
  reflexivity.
Defined.

(** C10: after an [EnterNotify] or a [LeaveNotify], whatever its mode,
    [g_spaceBarIsPressed] is false; a [MouseEnter] or [MouseLeave] event is
    queued exactly when the mode is [NotifyNormal], and nothing is queued
    for the other modes.  The window itself is not changed. *)
Theorem crossing_clears_space_bar {P : Platform} :
  ∀ (now : Z) (enter : bool) (c : XCrossingEvent) (g : Globals)
    (w : WindowX11),
    let r := processX11Event now
               (if enter then EnterNotify c else LeaveNotify c) g w in
    g_spaceBarIsPressed (t_globals r) = false
    ∧ queued_types (t_effects r)
      = (if xcr_mode c =? NotifyNormal
         then [if enter then MouseEnter else MouseLeave] else [])
    ∧ length (t_effects r) = length (queued_types (t_effects r))
    ∧ t_window r = w.
Proof.
  intros now enter c g w.
  destruct enter; simpl; unfold processCrossingEvent;
    destruct (xcr_mode c =? NotifyNormal); done.
Qed.

Lemma wheel_delta_unit button :
  is_mouse_wheel_button button = true →
  get_mouse_wheel_delta button
  = (if button =? 4 then mkPoint 0 (-1)
     else if button =? 5 then mkPoint 0 1
     else if button =? 6 then mkPoint (-1) 0
     else mkPoint 1 0).
Proof.
  unfold is_mouse_wheel_button, get_mouse_wheel_delta, Button4, Button5.
  intros Hwheel.
  destruct (button =? 4) eqn:H4; [done|].
  destruct (button =? 5) eqn:H5; [done|].
  destruct (button =? 6) eqn:H6; [done|].
  destruct (button =? 7) eqn:H7; [done|].
  done.
Qed.

(** C8, as amended: for a button event that is not dropped as a duplicate
    of an XInput event, a press of a wheel button (codes 4, 5, 6, 7) queues
    one [MouseWheel] event whose delta is (0,-1), (0,+1), (-1,0) or (+1,0)
    respectively, and the release of a wheel button queues nothing and has
    no other effect.  For any other code a release queues one [MouseUp]
    and a press queues one [MouseDown], or one [MouseDoubleClick] when it
    completes a double-click. *)
Theorem wheel_and_ordinary_buttons {P : Platform} :
  ∀ (now : Z) (press : bool) (b : XButtonEvent) (g : Globals)
    (w : WindowX11),
    xb_time b ≠ g_lastXInputEventTime g →
    let r := processX11Event now
               (if press then ButtonPress b else ButtonRelease b) g w in
    if is_mouse_wheel_button (xb_button b) then
      if press then
        ∃ ev, t_effects r = [queueEvent ev]
              ∧ ev_type ev = MouseWheel
              ∧ ev_wheelDelta ev
                = Some (if xb_button b =? 4 then mkPoint 0 (-1)
                        else if xb_button b =? 5 then mkPoint 0 1
                        else if xb_button b =? 6 then mkPoint (-1) 0
                        else mkPoint 1 0)
      else r = mkTranslated g w []
    else
      ∃ ev, t_effects r = [queueEvent ev]
            ∧ ev_button ev = Some (get_mouse_button_from_x (xb_button b))
            ∧ ev_wheelDelta ev = None
            ∧ ev_type ev
              = (if press then
                   if completes_double_click now b w
                   then MouseDoubleClick else MouseDown
                 else MouseUp).
Proof.
  intros now press b g w Htime.
  apply Z.eqb_neq in Htime.
  destruct (is_mouse_wheel_button (xb_button b)) eqn:Hwheel.
  - destruct press; simpl; unfold processButtonEvent;
      rewrite Htime, Hwheel; [|done].
    eexists. split; [done|]. split; [done|]. simpl.
    by rewrite wheel_delta_unit.
  - destruct press; simpl; unfold processButtonEvent, completes_double_click;
      rewrite Htime, Hwheel.
    + case_match; eexists; (split; [done|]); done.
    + eexists. split; [done|]. done.
Qed.

Lemma wheel_and_ordinary_buttons_witness :
  ∃ ev,
    t_effects (processX11Event (H := sample_platform) 1000
                 (ButtonPress (mkXButtonEvent 5000 10 20 0 5))
                 sample_globals (sample_window 1))
    = [queueEvent ev]
    ∧ ev_type ev = MouseWheel
    ∧ ev_wheelDelta ev = Some (mkPoint 0 1).
Proof.
  apply (wheel_and_ordinary_buttons (P := sample_platform) 1000 true
           (mkXButtonEvent 5000 10 20 0 5) sample_globals (sample_window 1)).
  discriminate.
Defined.

(** C8, as stated, fails for the press that completes a double-click: the
    second of two presses of button 1 (not a wheel button), handled 100 ms
    apart, is translated to [MouseDoubleClick], which is neither
    [MouseDown] nor [MouseUp]. *)
Lemma ordinary_button_double_click_counterexample :
  let r := processX11Events (H := sample_platform)
             [(1000, ButtonPress left_press); (1100, ButtonPress left_press)]
             sample_globals (sample_window 1) in
  is_mouse_wheel_button (xb_button left_press) = false
  ∧ queued_types (t_effects r) = [MouseDown; MouseDoubleClick]
  ∧ ¬ (∀ t, t ∈ queued_types (t_effects r) → t = MouseDown ∨ t = MouseUp).
Proof.
  cbv zeta. split; [reflexivity|]. split; [reflexivity|].
  intros Hall. destruct (Hall MouseDoubleClick) as [Hd | Hu].
  - vm_compute. apply list_elem_of_In. right. left. reflexivity.
  - discriminate.
  - discriminate.
Qed.

Lemma queued_types_app a b :
  queued_types (a ++ b) = queued_types a ++ queued_types b.
Proof. unfold queued_types, queued. by rewrite omap_app, fmap_app. Qed.

Lemma queued_types_one ev : queued_types [queueEvent ev] = [ev_type ev].
Proof. done. Qed.

Lemma processX11Events_cons {P : Platform} now event rest g w :
  t_effects (processX11Events ((now, event) :: rest) g w)
  = t_effects (processX11Event now event g w)
    ++ t_effects (processX11Events rest
                    (t_globals (processX11Event now event g w))
                    (t_window (processX11Event now event g w)))
  ∧ t_window (processX11Events ((now, event) :: rest) g w)
    = t_window (processX11Events rest
                  (t_globals (processX11Event now event g w))
                  (t_window (processX11Event now event g w))).
Proof. done. Qed.

Lemma processX11Events_app {P : Platform} l1 : ∀ l2 g w,
  processX11Events (l1 ++ l2) g w
  = let r1 := processX11Events l1 g w in
    let r2 := processX11Events l2 (t_globals r1) (t_window r1) in
    mkTranslated (t_globals r2) (t_window r2) (t_effects r1 ++ t_effects r2).
Proof.
  induction l1 as [|[now event] rest IH]; intros l2 g w.
  - simpl. by destruct (processX11Events l2 g w).
  - simpl. rewrite IH. simpl. by rewrite app_assoc.
Qed.

(** C3, as amended: with a scale factor [s ≥ 1], every canonical event
    queued for a native pointer event at device position (x, y) (button,
    motion, enter or leave) carries the position (x / s, y / s) where the
    division is that of C++ [int]s, which truncates toward zero; this is
    (⌊x/s⌋, ⌊y/s⌋) whenever x and y are not negative.  Such an event is
    queued for every press, for every release of an ordinary button and for
    every crossing of mode [NotifyNormal]; a motion event queues nothing
    when this position equals [m_lastMousePos], the position of the last
    reported motion, and otherwise queues one [MouseMove] and records the
    position (duplicates of XInput events apart). *)
Theorem logical_position_is_truncated_quotient {P : Platform} :
  ∀ (now : Z) (event : XEvent) (g : Globals) (w : WindowX11) (x y : Z),
    1 ≤ m_scale w →
    native_position event = Some (x, y) →
    let r := processX11Event now event g w in
    let pos := mkPoint (Z.quot x (m_scale w)) (Z.quot y (m_scale w)) in
    (∀ ev, ev ∈ queued (t_effects r) → ev_position ev = Some pos)
    ∧ (0 ≤ x → 0 ≤ y → pos = mkPoint (x / m_scale w) (y / m_scale w))
    ∧ (core_pointer_time event ≠ Some (g_lastXInputEventTime g) →
       match event with
       | ButtonPress b => ∃ ev, queued (t_effects r) = [ev]
       | ButtonRelease b =>
           is_mouse_wheel_button (xb_button b) = false →
           ∃ ev, queued (t_effects r) = [ev]
       | MotionNotify m =>
           if bool_decide (m_lastMousePos w = pos)
           then t_effects r = []
           else ∃ ev, queued (t_effects r) = [ev]
                      ∧ ev_type ev = MouseMove
                      ∧ m_lastMousePos (t_window r) = pos
       | EnterNotify c | LeaveNotify c =>
           xcr_mode c = NotifyNormal → ∃ ev, queued (t_effects r) = [ev]
       | _ => True
       end).
Proof.
  intros now event g w x y Hscale Hpos r pos.
  split; [|split].
  - intros ev Hin. subst r pos.
    destruct event; simpl in Hpos; simplify_eq; simpl in Hin;
      unfold processButtonEvent, processMotionNotify,
        processCrossingEvent in Hin;
      repeat case_match; one_queued Hin.
  - intros Hx Hy. subst pos.
    rewrite !Z.quot_div_nonneg by lia. done.
  - intros Hkept. subst r pos.
    destruct event; simpl in Hpos; simplify_eq; simpl in *.
    + assert ((xb_time b =? g_lastXInputEventTime g) = false) as Ht
        by (apply Z.eqb_neq; congruence).
      unfold processButtonEvent. rewrite Ht.
      repeat case_match; simpl; eauto.
    + intros Hwheel.
      assert ((xb_time b =? g_lastXInputEventTime g) = false) as Ht
        by (apply Z.eqb_neq; congruence).
      unfold processButtonEvent. rewrite Ht, Hwheel. simpl. eauto.
    + assert ((xm_time m =? g_lastXInputEventTime g) = false) as Ht
        by (apply Z.eqb_neq; congruence).
      unfold processMotionNotify. rewrite Ht. simpl.
      case_bool_decide; simpl; eauto.
    + intros Hmode. unfold processCrossingEvent.
      rewrite Hmode. simpl. eauto.
    + intros Hmode. unfold processCrossingEvent.
      rewrite Hmode. simpl. eauto.
Qed.

Lemma logical_position_is_truncated_quotient_witness :
  ev_position
    <$> queued (t_effects (processX11Event (H := sample_platform) 1000
                             (MotionNotify (mkXMotionEvent 6000 31 45 0))
                             sample_globals (sample_window 2)))
  = [Some (mkPoint 15 22)].
Proof.
  destruct (logical_position_is_truncated_quotient (P := sample_platform)
              1000 (MotionNotify (mkXMotionEvent 6000 31 45 0))
              sample_globals (sample_window 2) 31 45)
    as (Hpos & _ & Hemit).
  - simpl. lia.
  - reflexivity.
  - destruct Hemit as (ev & Hqueue & _ & _); [discriminate|].
    rewrite Hqueue. simpl. f_equal.
    apply Hpos. rewrite Hqueue. apply list_elem_of_singleton. reflexivity.
Defined.

(** C3, as stated, fails for negative coordinates, which a window receives
    while the pointer is grabbed and left of or above it: with scale 2 the
    release of button 1 at device position (-1, -3) is reported at (0, -1),
    whereas (⌊-1/2⌋, ⌊-3/2⌋) is (-1, -2). *)
Lemma negative_position_counterexample :
  let r := processX11Event (H := sample_platform) 1000
             (ButtonRelease (mkXButtonEvent 5000 (-1) (-3) 0 1))
             sample_globals (sample_window 2) in
  m_scale (sample_window 2) = 2
  ∧ ev_position <$> queued (t_effects r) = [Some (mkPoint 0 (-1))]
  ∧ mkPoint (-1 / 2) (-3 / 2) = mkPoint (-1) (-2)
  ∧ ¬ (∀ ev, ev ∈ queued (t_effects r) →
             ev_position ev = Some (mkPoint (-1 / 2) (-3 / 2))).
Proof.
  cbv zeta. split; [reflexivity|]. split; [reflexivity|].
  split; [reflexivity|].
  intros Hall.
  specialize (Hall (mkEvent MouseUp (Some (mkPoint 0 (-1))) (Some 0)
                      (Some LeftButton) None None None)).
  assert (Some (mkPoint 0 (-1)) = Some (mkPoint (-1 / 2) (-3 / 2))) as Habs.
  { apply Hall. vm_compute. apply list_elem_of_In. left. reflexivity. }
  vm_compute in Habs. discriminate.
Qed.

(** ** Double clicks *)

Lemma press_plain {P : Platform} now b g w :
  xb_time b ≠ g_lastXInputEventTime g →
  is_mouse_wheel_button (xb_button b) = false →
  completes_double_click now b w = false →
  ∃ ev,
    processX11Event now (ButtonPress b) g w
    = mkTranslated g
        (set_m_doubleClickTick now
           (set_m_doubleClickButton
              (get_mouse_button_from_x (xb_button b)) w))
        [queueEvent ev]
    ∧ ev_type ev = MouseDown.
Proof.
  intros Ht Hwheel Hplain. apply Z.eqb_neq in Ht.
  simpl. unfold processButtonEvent, completes_double_click in *.
  rewrite Ht, Hwheel, Hplain. eauto.
Qed.

Lemma press_double {P : Platform} now b g w :
  xb_time b ≠ g_lastXInputEventTime g →
  is_mouse_wheel_button (xb_button b) = false →
  completes_double_click now b w = true →
  ∃ ev,
    processX11Event now (ButtonPress b) g w
    = mkTranslated g (set_m_doubleClickButton NoneButton w) [queueEvent ev]
    ∧ ev_type ev = MouseDoubleClick.
Proof.
  intros Ht Hwheel Hdouble. apply Z.eqb_neq in Ht.
  simpl. unfold processButtonEvent, completes_double_click in *.
  rewrite Ht, Hwheel, Hdouble. eauto.
Qed.

Lemma unseen_event_keeps_tracking {P : Platform} now event g w :
  seen_by_double_click g event = false →
  let r := processX11Event now event g w in
  m_doubleClickButton (t_window r) = m_doubleClickButton w
  ∧ m_doubleClickTick (t_window r) = m_doubleClickTick w.
Proof.
  intros Hunseen. destruct event; simpl in *; try done.
  - unfold processConfigureNotify. by repeat case_match.
  - unfold processKeyEvent. by repeat case_match.
  - unfold processKeyEvent. by repeat case_match.
  - unfold processButtonEvent.
    destruct (xb_time b =? g_lastXInputEventTime g); [done|].
    by destruct (is_mouse_wheel_button (xb_button b)).
  - unfold processButtonEvent. by repeat case_match.
  - unfold processMotionNotify.
    by destruct (xm_time m =? g_lastXInputEventTime g).
  - unfold processCrossingEvent. by repeat case_match.
  - unfold processCrossingEvent. by repeat case_match.
  - by case_match.
  - unfold processPropertyNotify. by repeat case_match.
Qed.

Lemma unseen_run_keeps_tracking {P : Platform} events : ∀ g w,
  unseen_by_double_click events g w = true →
  let r := processX11Events events g w in
  m_doubleClickButton (t_window r) = m_doubleClickButton w
  ∧ m_doubleClickTick (t_window r) = m_doubleClickTick w.
Proof.
  induction events as [|[now event] rest IH]; intros g w Hunseen; [done|].
  cbn [unseen_by_double_click] in Hunseen. cbv zeta in Hunseen.
  apply andb_true_iff in Hunseen as [Hevent Hrest].
  apply negb_true_iff in Hevent.
  destruct (unseen_event_keeps_tracking now event g w Hevent) as [Hb Ht].
  destruct (IH _ _ Hrest) as [Hb' Ht'].
  cbv zeta. cbn [processX11Events t_window]. split; congruence.
Qed.

Lemma interrupt_resets_tracking {P : Platform} now button event g w :
  button ≠ NoneButton →
  interrupts_double_click button g event = true →
  m_doubleClickButton (t_window (processX11Event now event g w)) ≠ button.
Proof.
  intros Hknown Hint. destruct event; simpl in *; try done.
  - apply andb_true_iff in Hint as [Hseen Hother].
    apply andb_true_iff in Hseen as [Htime Hwheel].
    apply negb_true_iff in Htime, Hwheel.
    apply bool_decide_eq_true in Hother.
    unfold processButtonEvent. rewrite Htime, Hwheel.
    case_match; simpl; congruence.
  - apply negb_true_iff in Hint.
    unfold processMotionNotify. rewrite Hint.
    case_bool_decide; simpl; congruence.
Qed.

(** C2, as amended: take two presses of the same ordinary button (not a
    wheel code, and known to [get_mouse_button_from_x]), each translated
    (not dropped as the duplicate of an XInput event), handled at ticks
    [t1 ≤ t2], where the first press does not itself complete a
    double-click; any events may be handled between the two.  The first
    press queues [MouseDown].  When the tracking sees none of the events in
    between (they may be anything but a translated motion or a translated
    press of an ordinary button: the release of the button, wheel, key and
    crossing events, XInput events and the duplicates dropped for them):
    if [t2 - t1 < 250] the second press queues [MouseDoubleClick] and no
    [MouseDown], and the tracked button is reset to [NoneButton]; if
    [t2 - t1 ≥ 250] it queues [MouseDown].  When a translated motion, or a
    translated press of another ordinary button, is handled between them and
    the tracking sees nothing of what follows it, the second press queues
    [MouseDown] whatever the ticks are.  The events queued by the whole run
    are those of the first press, of the events between and of the second
    press, in this order. *)
Theorem double_click_within_timeout {P : Platform} :
  ∀ (g : Globals) (w : WindowX11) (b1 b2 : XButtonEvent) (t1 t2 : Z)
    (between : list (Z * XEvent)),
    let button := get_mouse_button_from_x (xb_button b1) in
    let first := processX11Event t1 (ButtonPress b1) g w in
    let mid := processX11Events between (t_globals first) (t_window first) in
    let second :=
      processX11Event t2 (ButtonPress b2) (t_globals mid) (t_window mid) in
    xb_button b1 = xb_button b2 →
    is_mouse_wheel_button (xb_button b1) = false →
    button ≠ NoneButton →
    xb_time b1 ≠ g_lastXInputEventTime g →
    xb_time b2 ≠ g_lastXInputEventTime (t_globals mid) →
    completes_double_click t1 b1 w = false →
    0 ≤ t1 ≤ t2 ∧ t2 < 2 ^ 64 →
    queued_types
      (t_effects
         (processX11Events
            ((t1, ButtonPress b1) :: between ++ [(t2, ButtonPress b2)]) g w))
    = queued_types (t_effects first) ++ queued_types (t_effects mid)
      ++ queued_types (t_effects second)
    ∧ queued_types (t_effects first) = [MouseDown]
    ∧ (unseen_by_double_click between (t_globals first) (t_window first)
       = true →
       (t2 - t1 < LAF_X11_DOUBLE_CLICK_TIMEOUT →
          queued_types (t_effects second) = [MouseDoubleClick]
          ∧ m_doubleClickButton (t_window second) = NoneButton)
       ∧ (LAF_X11_DOUBLE_CLICK_TIMEOUT ≤ t2 - t1 →
          queued_types (t_effects second) = [MouseDown]))
    ∧ (∀ before tx x after,
         between = before ++ (tx, x) :: after →
         let reached :=
           processX11Events before (t_globals first) (t_window first) in
         let broken :=
           processX11Event tx x (t_globals reached) (t_window reached) in
         interrupts_double_click button (t_globals reached) x = true →
         unseen_by_double_click after (t_globals broken) (t_window broken)
         = true →
         queued_types (t_effects second) = [MouseDown]).
Proof.
  intros g w b1 b2 t1 t2 between button first mid second
    Hsame Hwheel Hknown Ht1 Ht2 Hplain Hticks.
  destruct (press_plain t1 b1 g w Ht1 Hwheel Hplain) as (ev1 & Hfirst & Hty1).
  fold first in Hfirst.
  assert (is_mouse_wheel_button (xb_button b2) = false) as Hwheel2
    by (by rewrite <- Hsame).
  assert (tick_diff t2 t1 = t2 - t1) as Hdiff.
  { unfold tick_diff. apply Z.mod_small. lia. }
  assert (queued_types (t_effects first) = [MouseDown]) as Hdown.
  { rewrite Hfirst. cbn [t_effects]. by rewrite queued_types_one, Hty1. }
  assert (m_doubleClickButton (t_window first) = button
          ∧ m_doubleClickTick (t_window first) = t1) as [Hb1 Htick1]
    by (by rewrite Hfirst).
  split_and!.
  - destruct (processX11Events_cons t1 (ButtonPress b1)
                (between ++ [(t2, ButtonPress b2)]) g w) as [-> _].
    fold first. rewrite processX11Events_app. cbv zeta. fold mid.
    cbn [t_effects].
    destruct (processX11Events_cons t2 (ButtonPress b2) []
                (t_globals mid) (t_window mid)) as [-> _].
    fold second. cbn [processX11Events t_effects].
    by rewrite app_nil_r, !queued_types_app.
  - exact Hdown.
  - intros Hunseen.
    destruct (unseen_run_keeps_tracking between _ _ Hunseen) as [Hb Ht].
    cbv zeta in Hb, Ht. fold mid in Hb, Ht.
    split.
    + intros Hnear.
      assert (completes_double_click t2 b2 (t_window mid) = true) as Hdouble.
      { unfold completes_double_click.
        rewrite Hb, Ht, Hb1, Htick1, <- Hsame, Hdiff.
        rewrite bool_decide_eq_true_2 by done.
        apply andb_true_intro. split; [done|]. by apply Z.ltb_lt. }
      destruct (press_double t2 b2 _ _ Ht2 Hwheel2 Hdouble)
        as (ev2 & Hsecond & Hty2).
      fold second in Hsecond. rewrite Hsecond. cbn [t_effects t_window].
      by rewrite queued_types_one, Hty2.
    + intros Hfar.
      assert (completes_double_click t2 b2 (t_window mid) = false) as Hsingle.
      { unfold completes_double_click. rewrite Ht, Htick1, Hdiff.
        apply andb_false_intro2. by apply Z.ltb_ge. }
      destruct (press_plain t2 b2 _ _ Ht2 Hwheel2 Hsingle)
        as (ev2 & Hsecond & Hty2).
      fold second in Hsecond. rewrite Hsecond. cbn [t_effects].
      by rewrite queued_types_one, Hty2.
  - intros before tx x after Hbetween reached broken Hint Hunseen.
    pose proof (interrupt_resets_tracking tx button x (t_globals reached)
                  (t_window reached) Hknown Hint) as Hreset.
    fold broken in Hreset.
    destruct (unseen_run_keeps_tracking after _ _ Hunseen) as [Hb _].
    cbv zeta in Hb.
    assert (t_window mid
            = t_window (processX11Events after (t_globals broken)
                          (t_window broken))) as Hmid.
    { unfold mid. rewrite Hbetween, processX11Events_app. cbv zeta.
      fold reached. cbn [t_window].
      destruct (processX11Events_cons tx x after (t_globals reached)
                  (t_window reached)) as [_ ->].
      done. }
    assert (completes_double_click t2 b2 (t_window mid) = false) as Hsingle.
    { unfold completes_double_click. rewrite Hmid, Hb, <- Hsame.
      rewrite bool_decide_eq_false_2 by done. done. }
    destruct (press_plain t2 b2 _ _ Ht2 Hwheel2 Hsingle)
      as (ev2 & Hsecond & Hty2).
    fold second in Hsecond. rewrite Hsecond. cbn [t_effects].
    by rewrite queued_types_one, Hty2.
Qed.

Lemma double_click_within_timeout_witness :
  queued_types
    (t_effects (processX11Events (H := sample_platform)
                  [(1000, ButtonPress left_press);
                   (1040, ButtonRelease left_press);
                   (1100, ButtonPress left_press)]
                  sample_globals (sample_window 1)))
  = [MouseDown; MouseUp; MouseDoubleClick]
  ∧ queued_types
      (t_effects (processX11Events (H := sample_platform)
                    [(1000, ButtonPress left_press);
                     (1040, ButtonPress right_press);
                     (1100, ButtonPress left_press)]
                    sample_globals (sample_window 1)))
    = [MouseDown; MouseDown; MouseDown].
Proof.
  split.
  - destruct (double_click_within_timeout (P := sample_platform)
                sample_globals (sample_window 1) left_press left_press
                1000 1100 [(1040, ButtonRelease left_press)])
      as (Hrun & Hfirst & Hquiet & _).
    + reflexivity.
    + reflexivity.
    + discriminate.
    + discriminate.
    + discriminate.
    + reflexivity.
    + lia.
    + destruct (Hquiet eq_refl) as [Hnear _].
      destruct (Hnear eq_refl) as [Hsecond _].
      etransitivity; [exact Hrun|]. rewrite Hfirst, Hsecond. reflexivity.
  - destruct (double_click_within_timeout (P := sample_platform)
                sample_globals (sample_window 1) left_press left_press
                1000 1100 [(1040, ButtonPress right_press)])
      as (Hrun & Hfirst & _ & Hbroken).
    + reflexivity.
    + reflexivity.
    + discriminate.
    + discriminate.
    + discriminate.
    + reflexivity.
    + lia.
    + etransitivity; [exact Hrun|]. rewrite Hfirst.
      rewrite (Hbroken [] 1040 (ButtonPress right_press) [] eq_refl
                 eq_refl eq_refl).
      reflexivity.
Defined.

(** C2, as stated, fails for a pair whose first press is itself reported as
    a double-click.  Button 1 is pressed three times, handled at ticks 1000,
    1100 and 1200.  The second and third presses are a pair of presses of the
    same button 100 ms apart, yet the third one is reported as a plain
    [MouseDown]: the second press had reset the tracked button. *)
Lemma third_press_counterexample :
  let earlier := processX11Events (H := sample_platform)
                   [(1000, ButtonPress left_press)]
                   sample_globals (sample_window 1) in
  let pair := processX11Events (H := sample_platform)
                [(1100, ButtonPress left_press);
                 (1200, ButtonPress left_press)]
                (t_globals earlier) (t_window earlier) in
  1200 - 1100 < LAF_X11_DOUBLE_CLICK_TIMEOUT
  ∧ queued_types (t_effects pair) = [MouseDoubleClick; MouseDown]
  ∧ ¬ (queued_types (t_effects pair) !! 1%nat = Some MouseDoubleClick).
Proof.
  cbv zeta. split; [reflexivity|]. split; [reflexivity|].
  vm_compute. discriminate.
Qed.

(** ** Bitmap cursors *)



Lemma Surface_pixel_defined surface x y :
  Surface_wf surface →
  0 ≤ x < surface_width surface → 0 ≤ y < surface_height surface →
  ∃ c, Surface_pixel surface x y = Some c
       ∧ default 0 (getData surface y !! Z.to_nat x) = c.
Proof.
  intros (Hw & Hh & Hrows & Hall) Hx Hy.
  unfold Surface_pixel, getData.
  destruct (surface_rows surface !! Z.to_nat y) as [row|] eqn:Hrow.
  - assert (length row = Z.to_nat (surface_width surface)) as Hlen.
    { eapply (Forall_lookup_1 _ _ _ _ Hall Hrow). }
    destruct (row !! Z.to_nat x) as [c|] eqn:Hc.
    + exists c. simpl. by rewrite Hc.
    + apply lookup_ge_None in Hc. lia.
  - apply lookup_ge_None in Hrow. lia.
Qed.







(** ** Ownership of cursor handles *)

Lemma elem_of_after_release c old E live :
  c ∈ after_release old E live
  ↔ c ∈ live ∧ ¬ (c = old ∧ old ≠ XNone ∧ old ≠ E).
Proof.
  unfold after_release. case_bool_decide as Hrel.
  - rewrite elem_of_difference, elem_of_singleton. tauto.
  - tauto.
Qed.

Lemma pending_none live next E cur :
  accounted live next E cur → pending live next E cur XNone.
Proof.
  intros (I0 & I1 & I2 & I3 & I4 & I5).
  unfold pending. split_and!; try done; [|by left|by left].
  intros c Hc. destruct (I4 c Hc) as [?|?]; auto.
Qed.

Lemma pending_hidden live next E cur :
  accounted live next E cur → E ≠ XNone → pending live next E cur E.
Proof.
  intros (I0 & I1 & I2 & I3 & I4 & I5) HE.
  unfold pending. split_and!; try done.
  - intros c Hc. destruct (I4 c Hc) as [?|?]; auto.
  - right. by left.
Qed.

Lemma pending_fresh live next E E1 cur :
  accounted live next E cur →
  E1 = E ∨ (E = XNone ∧ E1 = next) →
  pending ({[next]} ∪ live) (next + 1) E1 cur next.
Proof.
  intros (I0 & I1 & I2 & I3 & I4 & I5) HE.
  assert (∀ h, cur !! h ≠ Some next) as Hfresh.
  { intros h Hh. destruct (I3 h next Hh) as [Hn | Hn].
    - unfold XNone in Hn. lia.
    - apply I1 in Hn. lia. }
  split; [lia|]. split; [|split; [|split; [|split; [|split; [|split]]]]].
  - intros c Hc. apply elem_of_union in Hc as [Hc | Hc].
    + apply elem_of_singleton in Hc. lia.
    + apply I1 in Hc. lia.
  - destruct HE as [-> | [_ ->]].
    + destruct I2 as [I2 | I2]; [by left|]. right.
      apply elem_of_union. by right.
    + right. apply elem_of_union. left. by apply elem_of_singleton.
  - intros h c Hh. destruct (I3 h c Hh) as [?|?]; [by left|].
    right. apply elem_of_union. by right.
  - intros c Hc. apply elem_of_union in Hc as [Hc | Hc].
    + apply elem_of_singleton in Hc. auto.
    + destruct (I4 c Hc) as [-> | Hown]; [|auto].
      destruct HE as [-> | [HE _]]; [auto|].
      apply I1 in Hc. unfold XNone in HE. lia.
  - intros h1 h2 c H1 H2 Hc HcE. apply (I5 h1 h2 c); try done.
    destruct HE as [<- | [-> _]]; done.
  - right. apply elem_of_union. left. by apply elem_of_singleton.
  - right. by right.
Qed.

Lemma accounted_install live next E cur x h old :
  pending live next E cur x →
  cur !! h = Some old →
  accounted (after_release old E live) next E (<[h := x]> cur).
Proof.
  intros (P0 & P1 & P2 & P3 & P4 & P5 & P6 & P7) Hold.
  split; [done|]. split; [|split; [|split; [|split]]].
  - intros c Hc. apply elem_of_after_release in Hc as [Hc _]. auto.
  - destruct P2 as [P2 | P2]; [by left|]. right.
    apply elem_of_after_release. split; [done|]. intros (-> & _ & Hne). done.
  - intros h' c Hh'. destruct (decide (h' = h)) as [-> | Hne].
    + rewrite lookup_insert_eq in Hh'. simplify_eq.
      destruct P6 as [P6 | P6]; [by left|]. right.
      apply elem_of_after_release. split; [done|].
      intros (-> & H0 & HE).
      destruct P7 as [P7 | [P7 | P7]]; [done|done|]. by apply (P7 h).
    + rewrite lookup_insert_ne in Hh' by done.
      destruct (P3 h' c Hh') as [?|Hc]; [by left|]. right.
      apply elem_of_after_release. split; [done|].
      intros (-> & H0 & HE). apply Hne. by apply (P5 h' h old).
  - intros c Hc. apply elem_of_after_release in Hc as [Hc Hkept].
    destruct (P4 c Hc) as [-> | [-> | [h' Hh']]]; [by left| |].
    + right. exists h. apply lookup_insert_eq.
    + destruct (decide (h' = h)) as [-> | Hne].
      * simplify_eq. left.
        destruct (decide (old = E)) as [|HE]; [done|].
        exfalso. apply Hkept. split; [done|]. split; [|done].
        intros ->. apply P1 in Hc. unfold XNone in Hc. lia.
      * right. exists h'. by rewrite lookup_insert_ne.
  - intros h1 h2 c H1 H2 Hc HcE.
    destruct (decide (h1 = h)) as [-> | Hne1];
      destruct (decide (h2 = h)) as [-> | Hne2]; [done| | |].
    + rewrite lookup_insert_eq in H1. rewrite lookup_insert_ne in H2 by done.
      simplify_eq. destruct P7 as [P7 | [P7 | P7]]; [done|done|].
      by destruct (P7 h2).
    + rewrite lookup_insert_eq in H2. rewrite lookup_insert_ne in H1 by done.
      simplify_eq. destruct P7 as [P7 | [P7 | P7]]; [done|done|].
      by destruct (P7 h1).
    + rewrite lookup_insert_ne in H1, H2 by done. by apply (P5 h1 h2 c).
Qed.

Lemma setX11Cursor_effect x srv g w :
  let st' := fst (setX11Cursor x (mkCursorState srv g w)) in
  cs_globals st' = g
  ∧ next_xid (cs_server st') = next_xid srv
  ∧ live_cursors (cs_server st')
    = after_release (m_cursor w) (empty_xcursor g) (live_cursors srv)
  ∧ m_cursor (cs_window st') = x.
Proof.
  unfold setX11Cursor, after_release.
  destruct (decide (m_cursor w = XNone)) as [Hnone | Hsome].
  - rewrite (bool_decide_eq_false_2 (m_cursor w ≠ XNone)) by tauto.
    rewrite (bool_decide_eq_false_2 (_ ∧ _)) by tauto.
    case_bool_decide as Hx; simpl; split_and!; try done;
      (destruct (decide (x = XNone)); [congruence|tauto]).
  - rewrite (bool_decide_eq_true_2 (m_cursor w ≠ XNone)) by done.
    destruct (decide (m_cursor w = empty_xcursor g)) as [Hhidden | Hown].
    + rewrite (bool_decide_eq_false_2 (m_cursor w ≠ empty_xcursor g)) by tauto.
      rewrite (bool_decide_eq_false_2 (_ ∧ _)) by tauto.
      case_bool_decide as Hx; simpl; split_and!; try done;
        (destruct (decide (x = XNone)); [congruence|tauto]).
    + rewrite (bool_decide_eq_true_2 (m_cursor w ≠ empty_xcursor g)) by done.
      rewrite (bool_decide_eq_true_2 (_ ∧ _)) by done.
      case_bool_decide as Hx; simpl; split_and!; try done;
        (destruct (decide (x = XNone)); [congruence|tauto]).
Qed.

Lemma installed_effect x srv g w srv1 g1 w1 live1 next1 E1 :
  prepared srv g x live1 next1 E1 →
  live_cursors srv1 = live1 → next_xid srv1 = next1 →
  empty_xcursor g1 = E1 → m_cursor w1 = m_cursor w →
  let st' := fst (setX11Cursor x (mkCursorState srv1 g1 w1)) in
  ∃ live1 next1 E1,
    prepared srv g x live1 next1 E1
    ∧ empty_xcursor (cs_globals st') = E1
    ∧ next_xid (cs_server st') = next1
    ∧ live_cursors (cs_server st') = after_release (m_cursor w) E1 live1
    ∧ m_cursor (cs_window st') = x.
Proof.
  intros Hprep <- <- <- <-.
  destruct (setX11Cursor_effect x srv1 g1 w1) as (Hg & Hn & Hl & Hc).
  eexists _, _, _. split; [exact Hprep|].
  cbv zeta. rewrite Hg. done.
Qed.

Lemma requestCursor_effect req srv g w :
  let st := mkCursorState srv g w in
  let st' := fst (requestCursor req st) in
  if rejected req then st' = st
  else ∃ x live1 next1 E1,
    prepared srv g x live1 next1 E1
    ∧ empty_xcursor (cs_globals st') = E1
    ∧ next_xid (cs_server st') = next1
    ∧ live_cursors (cs_server st') = after_release (m_cursor w) E1 live1
    ∧ m_cursor (cs_window st') = x.
Proof.
  destruct req as [cursor | lib surface focus scale]; simpl.
  - destruct cursor; simpl;
      try (exists (next_xid srv);
           apply (installed_effect (next_xid srv) srv g w _ g w
                    ({[next_xid srv]} ∪ live_cursors srv)
                    (next_xid srv + 1) (empty_xcursor g)); try done;
           right; right; auto).
    case_bool_decide as HE; simpl.
    + exists (next_xid srv).
      apply (installed_effect (next_xid srv) srv g w _ _ w
               ({[next_xid srv]} ∪ live_cursors srv)
               (next_xid srv + 1) (next_xid srv)); try done.
      right; right. split_and!; try done. by right.
    + exists (empty_xcursor g).
      apply (installed_effect (empty_xcursor g) srv g w srv g w
               (live_cursors srv) (next_xid srv) (empty_xcursor g));
        try done.
      right; left; auto.
  - unfold setNativeMouseCursor_surface.
    destruct (XcursorSupportsARGB lib); simpl; [|done].
    case_bool_decide as Hbpp; simpl; [done|].
    destruct (cursor_image lib w _ _) as [img|].
    + destruct (XcursorImageLoadCursor_succeeds lib);
        unfold XCreateCursor; cbv beta iota zeta.
      * exists (next_xid srv).
        apply (installed_effect (next_xid srv) srv g w _ g _
                 ({[next_xid srv]} ∪ live_cursors srv)
                 (next_xid srv + 1) (empty_xcursor g)); try done.
        right; right; auto.
      * exists XNone.
        apply (installed_effect XNone srv g w srv g _
                 (live_cursors srv) (next_xid srv) (empty_xcursor g));
          try done.
        left; auto.
    + exists XNone.
      apply (installed_effect XNone srv g w srv g _
               (live_cursors srv) (next_xid srv) (empty_xcursor g));
        try done.
      left; auto.
Qed.

Lemma accounted_new_window live next E cur h :
  accounted live next E cur → cur !! h = None →
  accounted live next E (<[h := XNone]> cur).
Proof.
  intros (I0 & I1 & I2 & I3 & I4 & I5) Hfree.
  unfold accounted. split_and!; try done.
  - intros h' c Hh'. destruct (decide (h' = h)) as [-> | Hne].
    + rewrite lookup_insert_eq in Hh'. left. congruence.
    + rewrite lookup_insert_ne in Hh' by done. eauto.
  - intros c Hc. destruct (I4 c Hc) as [? | [h' Hh']]; [by left|].
    right. exists h'. rewrite lookup_insert_ne; [done|]. congruence.
  - intros h1 h2 c H1 H2 Hc HcE.
    destruct (decide (h1 = h)) as [-> | Hne1].
    { rewrite lookup_insert_eq in H1. congruence. }
    destruct (decide (h2 = h)) as [-> | Hne2].
    { rewrite lookup_insert_eq in H2. congruence. }
    rewrite lookup_insert_ne in H1, H2 by done. eauto.
Qed.

Lemma pending_prepared live next E cur srv g x live1 next1 E1 :
  accounted live next E cur →
  live_cursors srv = live → next_xid srv = next → empty_xcursor g = E →
  prepared srv g x live1 next1 E1 →
  pending live1 next1 E1 cur x.
Proof.
  intros Hacc <- <- <- [Hnone | [Hhidden | Hfresh]].
  - destruct Hnone as (-> & -> & -> & ->). by apply pending_none.
  - destruct Hhidden as (-> & HE & -> & -> & ->). by apply pending_hidden.
  - destruct Hfresh as (-> & -> & -> & HE).
    by apply (pending_fresh _ _ (empty_xcursor g)).
Qed.

Lemma world_step_accounted W a :
  cursors_accounted W → cursors_accounted (world_step W a).
Proof.
  unfold cursors_accounted. intros Hacc.
  destruct a as [handle xic tick0 spec | handle req]; simpl.
  - destruct (world_windows W !! handle) eqn:Hw; [done|]. simpl.
    rewrite fmap_insert. apply accounted_new_window; [done|].
    by rewrite lookup_fmap, Hw.
  - destruct (world_windows W !! handle) as [w|] eqn:Hw; [|done]. simpl.
    pose proof (requestCursor_effect req (world_server W) (world_globals W) w)
      as Heff. cbv zeta in Heff.
    destruct (rejected req).
    + rewrite Heff. simpl. rewrite insert_id by done. done.
    + destruct Heff as (x & live1 & next1 & E1 & Hprep & -> & -> & -> & Hx).
      rewrite fmap_insert, Hx.
      apply accounted_install.
      * by apply (pending_prepared _ _ _ _ (world_server W) (world_globals W)
                    x live1 next1 _ Hacc).
      * by rewrite lookup_fmap, Hw.
Qed.

Lemma world_start_accounted g : cursors_accounted (world_start g).
Proof.
  unfold cursors_accounted, accounted. simpl. rewrite fmap_empty.
  split_and!.
  - done.
  - intros c Hc. by apply not_elem_of_empty in Hc.
  - by left.
  - intros h c Hh. by rewrite lookup_empty in Hh.
  - intros c Hc. by apply not_elem_of_empty in Hc.
  - intros h1 h2 c H1. by rewrite lookup_empty in H1.
Qed.

Lemma world_run_accounted actions W :
  cursors_accounted W → cursors_accounted (world_run actions W).
Proof.
  revert W. induction actions as [|a actions IH]; intros W Hacc; [done|].
  simpl. apply IH. by apply world_step_accounted.
Qed.

(** The effect of one cursor request on the handle the window had and on
    the hidden cursor. *)
Lemma world_step_releases W handle req w :
  cursors_accounted W →
  world_windows W !! handle = Some w →
  let W' := world_step W (SetCursor handle req) in
  (rejected req = false → owns (world_globals W) w (m_cursor w) →
   m_cursor w ∉ live_cursors (world_server W'))
  ∧ (empty_xcursor (world_globals W) ≠ XNone →
     empty_xcursor (world_globals W') = empty_xcursor (world_globals W)
     ∧ empty_xcursor (world_globals W) ∈ live_cursors (world_server W'))
  ∧ (rejected req = true → W' = W).
Proof.
  intros Hacc Hw. simpl. rewrite Hw.
  pose proof Hacc as (I0 & I1 & I2 & I3 & I4 & I5).
  pose proof (requestCursor_effect req (world_server W) (world_globals W) w)
    as Heff. cbv zeta in Heff.
  assert (m_cursor w = XNone ∨ m_cursor w ∈ live_cursors (world_server W))
    as Hold.
  { apply (I3 handle). by rewrite lookup_fmap, Hw. }
  destruct (rejected req).
  - split_and!; try done.
    + intros HE. rewrite Heff. simpl. split; [done|]. by destruct I2.
    + intros _. rewrite Heff. simpl. rewrite insert_id by done.
      by destruct W.
  - destruct Heff as (x & live1 & next1 & E1 & Hprep & HE1 & Hn1 & Hl1 & Hx).
    simpl. split_and!; try done.
    + intros _ (_ & Hsome & Hown). rewrite Hl1.
      rewrite elem_of_after_release. intros [_ Hkept]. apply Hkept.
      split_and!; try done.
      destruct Hprep as [(_ & _ & _ & ->) | [(_ & _ & _ & _ & ->)
                         | (_ & _ & _ & [-> | [_ ->]])]]; try done.
      destruct Hold as [? | Hin]; [done|]. apply I1 in Hin. lia.
    + intros HE. rewrite HE1, Hl1.
      assert (E1 = empty_xcursor (world_globals W)
              ∧ empty_xcursor (world_globals W) ∈ live1) as [-> Hin].
      { destruct I2 as [? | I2]; [done|].
        destruct Hprep as [(_ & -> & _ & ->) | [(_ & _ & -> & _ & ->)
                           | (_ & -> & _ & [-> | [? _]])]]; try done.
        split; [done|]. apply elem_of_union. by right. }
      split; [done|]. apply elem_of_after_release. split; [done|].
      intros (Heq & _ & Hne). by apply Hne.
Qed.

Lemma world_step_keeps_hidden W a :
  cursors_accounted W →
  empty_xcursor (world_globals W) ≠ XNone →
  empty_xcursor (world_globals (world_step W a))
  = empty_xcursor (world_globals W)
  ∧ empty_xcursor (world_globals W) ∈ live_cursors (world_server (world_step W a)).
Proof.
  intros Hacc HE.
  assert (empty_xcursor (world_globals W) ∈ live_cursors (world_server W))
    as Hin.
  { destruct Hacc as (_ & _ & [?|?] & _); done. }
  destruct a as [handle xic tick0 spec | handle req].
  - simpl. by destruct (world_windows W !! handle).
  - destruct (world_windows W !! handle) as [w|] eqn:Hw.
    + by apply (world_step_releases W handle req w Hacc Hw).
    + simpl. by rewrite Hw.
Qed.

Lemma world_run_keeps_hidden actions W :
  cursors_accounted W →
  empty_xcursor (world_globals W) ≠ XNone →
  empty_xcursor (world_globals (world_run actions W))
  = empty_xcursor (world_globals W)
  ∧ empty_xcursor (world_globals W)
    ∈ live_cursors (world_server (world_run actions W)).
Proof.
  revert W. induction actions as [|a actions IH]; intros W Hacc HE.
  - simpl. split; [done|]. destruct Hacc as (_ & _ & [?|?] & _); done.
  - simpl.
    destruct (world_step_keeps_hidden W a Hacc HE) as [Heq Hin].
    destruct (IH (world_step W a)) as [Heq' Hin'].
    + by apply world_step_accounted.
    + by rewrite Heq.
    + rewrite Heq in Heq', Hin'. done.
Qed.

Lemma size_map_img_le (m : gmap Z Z) :
  (size (map_img m : gset Z) ≤ size m)%nat.
Proof.
  induction m as [|i x m Hfree _ IH] using map_first_key_ind.
  - rewrite map_size_empty. rewrite (map_img_empty_L (SA := gset Z)).
    by rewrite size_empty.
  - rewrite map_size_insert_None by done.
    rewrite (map_img_insert_notin_L (SA := gset Z)) by done.
    rewrite size_union_alt, size_singleton.
    pose proof (subseteq_size (map_img m ∖ {[x]} : gset Z) (map_img m)) as Hle.
    assert (map_img m ∖ {[x]} ⊆ (map_img m : gset Z)) as Hsub.
    { intros c Hc. by apply elem_of_difference in Hc as [? _]. }
    specialize (Hle Hsub). lia.
Qed.

Lemma accounted_count live next E cur :
  accounted live next E cur → (size live ≤ S (size cur))%nat.
Proof.
  intros (_ & _ & _ & _ & I4 & _).
  assert (live ⊆ {[E]} ∪ map_img cur) as Hsub.
  { intros c Hc. apply elem_of_union.
    destruct (I4 c Hc) as [-> | [h Hh]].
    - left. by apply elem_of_singleton.
    - right. apply elem_of_map_img. by exists h. }
  apply subseteq_size in Hsub.
  rewrite size_union_alt, size_singleton in Hsub.
  pose proof (size_map_img_le cur) as Hle.
  assert (size (map_img cur ∖ {[E]} : gset Z) ≤ size (map_img cur : gset Z))%nat
    as Hle'.
  { apply subseteq_size. intros c Hc.
    by apply elem_of_difference in Hc as [? _]. }
  lia.
Qed.

(** C6: in every state the process reaches by creating windows and
    requesting cursors, the handle of a window is alive, every live cursor
    handle is either the hidden cursor or the handle held by exactly one
    window, so a window owns at most one live handle of its own and there
    are never more live handles than windows plus one.  A request
    that is not turned down releases the handle the window owned before;
    the hidden cursor is never among the handles released: once created it
    keeps its identifier and stays alive whatever follows. *)
Theorem one_live_cursor_per_window :
  ∀ (g : Globals) (actions : list WorldAction),
    let W := world_run actions (world_start g) in
    let live := live_cursors (world_server W) in
    let hidden := empty_xcursor (world_globals W) in
    (∀ handle w, world_windows W !! handle = Some w →
       m_cursor w = XNone ∨ m_cursor w ∈ live)
    ∧ (∀ c, c ∈ live →
         c = hidden
         ∨ ∃ handle w, world_windows W !! handle = Some w ∧ m_cursor w = c)
    ∧ (∀ h1 h2 w1 w2 c,
         world_windows W !! h1 = Some w1 → world_windows W !! h2 = Some w2 →
         owns (world_globals W) w1 c → owns (world_globals W) w2 c →
         h1 = h2)
    ∧ (size live ≤ S (size (world_windows W)))%nat
    ∧ (∀ handle req w,
         world_windows W !! handle = Some w →
         let W' := world_step W (SetCursor handle req) in
         (rejected req = false → owns (world_globals W) w (m_cursor w) →
          m_cursor w ∉ live_cursors (world_server W'))
         ∧ (rejected req = true → W' = W))
    ∧ (hidden ≠ XNone →
       ∀ more,
         empty_xcursor (world_globals (world_run more W)) = hidden
         ∧ hidden ∈ live_cursors (world_server (world_run more W))).
Proof.
  intros g actions W live hidden.
  assert (cursors_accounted W) as Hacc.
  { apply world_run_accounted, world_start_accounted. }
  pose proof Hacc as (I0 & I1 & I2 & I3 & I4 & I5).
  split_and!.
  - intros handle w Hw. apply (I3 handle). by rewrite lookup_fmap, Hw.
  - intros c Hc. destruct (I4 c Hc) as [? | [handle Hh]]; [by left|].
    right. rewrite lookup_fmap in Hh.
    destruct (world_windows W !! handle) as [w|] eqn:Hw; [|done].
    exists handle, w. split; [done|]. simpl in Hh. congruence.
  - intros h1 h2 w1 w2 c H1 H2 (Hc1 & Hsome & Hown) (Hc2 & _ & _).
    apply (I5 h1 h2 c); try done.
    + by rewrite lookup_fmap, H1, <- Hc1.
    + by rewrite lookup_fmap, H2, <- Hc2.
  - rewrite <- (map_size_fmap m_cursor). by apply (accounted_count _ _ _ _ Hacc).
  - intros handle req w Hw W'.
    destruct (world_step_releases W handle req w Hacc Hw) as (Hrel & _ & Hrej).
    done.
  - intros HE more. by apply world_run_keeps_hidden.
Qed.

Lemma one_live_cursor_per_window_witness :
  let W := world_run
             [CreateWindow 77 false 0 (sample_spec 1);
              SetCursor 77 (SystemCursor Hidden);
              SetCursor 77 (SystemCursor Arrow)]
             (world_start sample_globals) in
  let W' := world_step W (SetCursor 77 (SystemCursor IBeam)) in
  fmap m_cursor (world_windows W !! 77) = Some 2
  ∧ (2 ∉ live_cursors (world_server W'))
  ∧ empty_xcursor (world_globals W') = 1
  ∧ 1 ∈ live_cursors (world_server W').
Proof.
  cbv zeta.
  destruct (one_live_cursor_per_window sample_globals
              [CreateWindow 77 false 0 (sample_spec 1);
               SetCursor 77 (SystemCursor Hidden);
               SetCursor 77 (SystemCursor Arrow)])
    as (_ & _ & _ & _ & Hstep & Hhidden).
  split; [reflexivity|]. split.
  - edestruct (Hstep 77 (SystemCursor IBeam)) as (Hrel & _); [reflexivity|].
    apply Hrel; [reflexivity|]. split; [reflexivity|]. split; discriminate.
  - apply (Hhidden ltac:(discriminate) [SetCursor 77 (SystemCursor IBeam)]).
Defined.

(** * More properties of the window *)

(** ** The registry over the life of a window *)

Lemma removeWindow_registered checked window (reg : gmap Z Z) :
  reg !! x11window window = Some (this window) →
  removeWindow checked window reg = Done (delete (x11window window) reg).
Proof.
  intros Hreg. unfold removeWindow, ASSERT. rewrite Hreg.
  rewrite bool_decide_eq_true_2 by done.
  rewrite bool_decide_eq_true_2 by done.
  by rewrite !andb_false_r.
Qed.

(** X1: a window whose handle is not yet in the registry is registered by
    its constructor under that handle, resolves to its own address while it
    lives, and its destructor gives back exactly the registry there was
    before; this holds whether assertions are checked or not.  When
    [XCreateWindow] returns no window the constructor throws and no registry
    is produced. *)
Theorem registry_construct_destroy_round_trip :
  ∀ (checked : bool) (this_ handle : Z) (xic : bool) (tick0 : Z)
    (spec : WindowSpec) (reg : gmap Z Z),
    reg !! handle = None →
    handle ≠ XNone →
    ∃ w reg',
      WindowX11_construct checked this_ handle xic tick0 spec reg
      = Built w (Done reg')
      ∧ m_window w = handle
      ∧ getPointerFromHandle reg' handle = Some this_
      ∧ WindowX11_destroy checked this_ w reg' = Done reg
      ∧ WindowX11_construct checked this_ XNone xic tick0 spec reg = Thrown.
Proof.
  intros checked this_ handle xic tick0 spec reg Hfree Hhandle.
  exists (WindowX11_new handle xic tick0 spec), (<[handle := this_]> reg).
  apply Z.eqb_neq in Hhandle.
  split_and!.
  - unfold WindowX11_construct. rewrite Hhandle. simpl.
    by rewrite addWindow_fresh.
  - done.
  - apply lookup_insert_eq.
  - unfold WindowX11_destroy. simpl.
    rewrite removeWindow_registered by apply lookup_insert_eq. simpl.
    by rewrite delete_insert_eq, delete_id.
  - done.
Qed.

Lemma registry_construct_destroy_round_trip_witness :
  ∃ w reg',
    WindowX11_construct true 9002 78 false 0 (sample_spec 1) {[ 77 := 9001 ]}
    = Built w (Done reg')
    ∧ m_window w = 78
    ∧ getPointerFromHandle reg' 78 = Some 9002
    ∧ WindowX11_destroy true 9002 w reg' = Done {[ 77 := 9001 ]}
    ∧ WindowX11_construct true 9002 XNone false 0 (sample_spec 1)
        {[ 77 := 9001 ]} = Thrown.
Proof.
  apply (registry_construct_destroy_round_trip true 9002 78 false 0
           (sample_spec 1) {[ 77 := 9001 ]}).
  - reflexivity.
  - discriminate.
Defined.

(** X2: removing a registered window makes its handle unknown and leaves
    every other handle as it was.  Removing a window whose handle is
    registered for another object trips the second assertion, with the
    registry unchanged, when assertions are checked; when they are not, the
    entry is erased all the same. *)
Theorem removeWindow_erases_only_its_handle :
  ∀ (reg : gmap Z Z) (own foreign : WindowRef) (other : Z),
    reg !! x11window own = Some (this own) →
    reg !! x11window foreign = Some other →
    other ≠ this foreign →
    (∀ checked, ∃ reg',
       removeWindow checked own reg = Done reg'
       ∧ getPointerFromHandle reg' (x11window own) = None
       ∧ ∀ handle, handle ≠ x11window own →
           getPointerFromHandle reg' handle = getPointerFromHandle reg handle)
    ∧ removeWindow true foreign reg = AssertionFailed reg
    ∧ removeWindow false foreign reg
      = Done (delete (x11window foreign) reg).
Proof.
  intros reg own foreign other Hown Hforeign Hne. split_and!.
  - intros checked. eexists. split; [by apply removeWindow_registered|].
    unfold getPointerFromHandle. split.
    + apply lookup_delete_eq.
    + intros handle Hh. by apply lookup_delete_ne.
  - unfold removeWindow, ASSERT. rewrite Hforeign.
    rewrite bool_decide_eq_true_2 by done.
    by rewrite bool_decide_eq_false_2.
  - unfold removeWindow, ASSERT. by rewrite Hforeign.
Qed.

Lemma removeWindow_erases_only_its_handle_witness :
  removeWindow true (mkWindowRef 9001 77) {[ 77 := 9001 ]}
  = Done (delete 77 ({[ 77 := 9001 ]} : gmap Z Z))
  ∧ removeWindow true (mkWindowRef 9005 77) {[ 77 := 9001 ]}
    = AssertionFailed ({[ 77 := 9001 ]} : gmap Z Z).
Proof.
  destruct (removeWindow_erases_only_its_handle {[ 77 := 9001 ]}
              (mkWindowRef 9001 77) (mkWindowRef 9005 77) 9001)
    as (Hown & Hforeign & _).
  - reflexivity.
  - reflexivity.
  - discriminate.
  - split; [|exact Hforeign].
    apply removeWindow_registered. reflexivity.
Defined.

(** ** Wheel buttons *)

(** X3: the two wheel helpers agree: [get_mouse_wheel_delta] gives a delta
    other than (0, 0) exactly for the codes [is_mouse_wheel_button] accepts,
    and that delta moves by one step along one axis only. *)
Theorem wheel_delta_nonzero_iff_wheel_button :
  ∀ (button : Z),
    (get_mouse_wheel_delta button ≠ mkPoint 0 0
     ↔ is_mouse_wheel_button button = true)
    ∧ Z.abs (px (get_mouse_wheel_delta button))
      + Z.abs (py (get_mouse_wheel_delta button))
      = (if is_mouse_wheel_button button then 1 else 0).
Proof.
  intros button.
  unfold get_mouse_wheel_delta, is_mouse_wheel_button, Button4, Button5.
  destruct (button =? 4) eqn:H4; [by split|].
  destruct (button =? 5) eqn:H5; [by split|].
  destruct (button =? 6) eqn:H6; [by split|].
  destruct (button =? 7) eqn:H7; [by split|].
  simpl. split; [|done]. split; [by intros []|done].
Qed.

(** ** Maximize *)

Lemma isMaximized_loop_spec prop vert horz result :
  isMaximized_loop prop vert horz result = true
  ↔ result = true ∨ vert ∈ prop ∨ horz ∈ prop.
Proof.
  revert result. induction prop as [|item rest IH]; intros result; simpl.
  - rewrite !elem_of_nil. tauto.
  - rewrite IH, !elem_of_cons.
    destruct (Z.eqb_spec item vert) as [Hv|Hv];
      destruct (Z.eqb_spec item horz) as [Hh|Hh]; simpl;
      intuition congruence.
Qed.

(** X4: [isMaximized] answers true exactly when the property could be read
    and one of the items read is one of the two maximized atoms; it answers
    false when the read fails.  [maximize] always sends exactly one
    [_NET_WM_STATE] message naming both atoms, asking to remove the state
    when [isMaximized] is true at that moment and to add it otherwise. *)
Theorem maximize_toggles_what_the_property_shows :
  ∀ (g : Globals) (vert horz : Z) (reply : option (list Z)) (w : WindowX11),
    (isMaximized vert horz reply = true
     ↔ ∃ prop, reply = Some prop ∧ (vert ∈ prop ∨ horz ∈ prop))
    ∧ ∃ message,
        maximize g vert horz reply w = [XSendEvent message]
        ∧ xc_window message = m_window w
        ∧ xc_message_type message = _NET_WM_STATE g
        ∧ xc_l1 message = vert ∧ xc_l2 message = horz
        ∧ (xc_l0 message = _NET_WM_STATE_REMOVE
           ↔ ∃ prop, reply = Some prop ∧ (vert ∈ prop ∨ horz ∈ prop))
        ∧ (xc_l0 message = _NET_WM_STATE_ADD
           ↔ ¬ ∃ prop, reply = Some prop ∧ (vert ∈ prop ∨ horz ∈ prop)).
Proof.
  intros g vert horz reply w.
  assert (isMaximized vert horz reply = true
          ↔ ∃ prop, reply = Some prop ∧ (vert ∈ prop ∨ horz ∈ prop)) as Hmax.
  { unfold isMaximized. destruct reply as [prop|].
    - rewrite isMaximized_loop_spec. split.
      + intros [? | Hin]; [done|]. by exists prop.
      + intros (prop' & Heq & Hin). simplify_eq. by right.
    - split; [done|]. by intros (prop' & ? & _). }
  split; [exact Hmax|].
  eexists. split; [reflexivity|]. simpl. split_and!; try done.
  - rewrite <- Hmax. by destruct (isMaximized vert horz reply).
  - rewrite <- Hmax. by destruct (isMaximized vert horz reply).
Qed.

(** ** Icons *)

Lemma icon_pixel_repack format c : icon_pixel format c = repack format c.
Proof.
  unfold icon_pixel, repack.
  set (a := wrap32 (Z.shiftl (channel c (alphaMask format)
                                (alphaShift format)) 24)).
  set (r := wrap32 (Z.shiftl (channel c (redMask format)
                                (redShift format)) 16)).
  set (g := wrap32 (Z.shiftl (channel c (greenMask format)
                                (greenShift format)) 8)).
  set (b := channel c (blueMask format) (blueShift format)).
  rewrite (Z.lor_comm (Z.lor (Z.lor b g) r) a).
  rewrite (Z.lor_comm (Z.lor b g) r), (Z.lor_comm b g).
  by rewrite !Z.lor_assoc.
Qed.

Lemma icon_row_spec n : ∀ format (p : list Z) i (data : list Z),
  (i + n ≤ length data)%nat →
  ∃ data',
    icon_row n format p i data = ((i + n)%nat, data')
    ∧ length data' = length data
    ∧ (∀ j, (j < i ∨ i + n ≤ j)%nat → data' !! j = data !! j)
    ∧ (∀ k, (k < n)%nat →
         data' !! (i + k)%nat
         = Some (icon_pixel format (default 0 (p !! k)))).
Proof.
  induction n as [|n IH]; intros format p i data Hlen.
  - exists data. simpl. rewrite Nat.add_0_r.
    split; [done|]. split; [done|]. split; [done|]. intros k Hk. lia.
  - simpl.
    set (data1 := <[i := icon_pixel format (default 0 (head p))]> data).
    assert (length data1 = length data) as Hlen1 by apply length_insert.
    destruct (IH format (tail p) (S i) data1)
      as (data' & Hrun & Hl & Hframe & Hfill); [lia|].
    exists data'. rewrite Hrun. split; [f_equal; lia|].
    split; [congruence|]. split.
    + intros j Hj. rewrite Hframe by lia.
      apply list_lookup_insert_ne. lia.
    + intros k Hk. destruct k as [|k].
      * rewrite Nat.add_0_r, Hframe by lia.
        unfold data1. rewrite list_lookup_insert_eq by lia.
        by rewrite head_lookup.
      * replace (i + S k)%nat with (S i + k)%nat by lia.
        rewrite Hfill by lia. by destruct p.
Qed.

Lemma icon_rows_spec n : ∀ y w icon i (data : list Z),
  0 ≤ y → 0 ≤ w →
  (i + n * Z.to_nat w ≤ length data)%nat →
  let data' := icon_rows n y w icon i data in
  length data' = length data
  ∧ (∀ j, (j < i)%nat → data' !! j = data !! j)
  ∧ (∀ r x, (r < n)%nat → (x < Z.to_nat w)%nat →
       data' !! (i + r * Z.to_nat w + x)%nat
       = Some (icon_pixel (surface_format icon)
                 (default 0 (getData icon (y + Z.of_nat r) !! x)))).
Proof.
  induction n as [|n IH]; intros y w icon i data Hy Hw Hlen.
  - simpl. split; [done|]. split; [done|]. intros r x Hr. lia.
  - simpl.
    destruct (icon_row_spec (Z.to_nat w) (surface_format icon)
                (getData icon y) i data)
      as (data1 & Hrun & Hl1 & Hframe1 & Hfill1); [lia|].
    rewrite Hrun.
    destruct (IH (y + 1) w icon (i + Z.to_nat w)%nat data1)
      as (Hl & Hframe & Hfill); [lia|lia|lia|].
    split; [congruence|]. split.
    + intros j Hj. rewrite Hframe by lia. apply Hframe1. lia.
    + intros r x Hr Hx. destruct r as [|r].
      * rewrite Nat.add_0_r, Z.add_0_r, Hframe by lia.
        by rewrite Hfill1.
      * replace (i + S r * Z.to_nat w + x)%nat
          with (i + Z.to_nat w + r * Z.to_nat w + x)%nat by lia.
        rewrite Hfill by lia.
        by replace (y + 1 + Z.of_nat r) with (y + Z.of_nat (S r)) by lia.
Qed.

Lemma icon_data_layout icon :
  Surface_wf icon →
  let w := surface_width icon in
  let h := surface_height icon in
  length (icon_data icon) = Z.to_nat (w * h + 2)
  ∧ icon_data icon !! 0%nat = Some w
  ∧ icon_data icon !! 1%nat = Some h
  ∧ ∀ x y, 0 ≤ x < w → 0 ≤ y < h →
      ∃ c, Surface_pixel icon x y = Some c
           ∧ icon_data icon !! Z.to_nat (2 + y * w + x)
             = Some (repack (surface_format icon) c).
Proof.
  intros Hwf w h. pose proof Hwf as (Hw & Hh & _ & _). fold w h in Hw, Hh.
  unfold icon_data. fold w h.
  set (data0 := <[1%nat := h]> (<[0%nat := w]>
                  (replicate (Z.to_nat (w * h + 2)) 0))).
  assert (length data0 = Z.to_nat (w * h + 2)) as Hlen0.
  { unfold data0. by rewrite !length_insert, length_replicate. }
  destruct (icon_rows_spec (Z.to_nat h) 0 w icon 2%nat data0)
    as (Hl & Hframe & Hfill); [lia|lia|nia|].
  split; [congruence|]. split; [|split].
  - rewrite Hframe by lia. unfold data0.
    rewrite list_lookup_insert_ne by lia.
    apply list_lookup_insert_eq. rewrite length_replicate. nia.
  - rewrite Hframe by lia. unfold data0.
    apply list_lookup_insert_eq. rewrite length_insert, length_replicate. nia.
  - intros x y Hx Hy.
    destruct (Surface_pixel_defined icon x y Hwf Hx Hy) as (c & Hc & Hget).
    exists c. split; [done|].
    replace (Z.to_nat (2 + y * w + x))
      with (2 + Z.to_nat y * Z.to_nat w + Z.to_nat x)%nat by nia.
    rewrite Hfill by lia.
    rewrite Z.add_0_l, Z2Nat.id by lia.
    by rewrite icon_pixel_repack, Hget.
Qed.

Lemma setIcons_loop_appends icon_atom icons (old : list Z) :
  foldl (λ prop req, property_after icon_atom req prop) old
        (setIcons_loop icon_atom icons false)
  = old ++ concat (icon_data <$> icons).
Proof.
  revert old. induction icons as [|icon rest IH]; intros old; simpl.
  - by rewrite app_nil_r.
  - rewrite Z.eqb_refl, IH. by rewrite <- app_assoc.
Qed.

(** X5: [setIcons] does nothing for a window without handle.  Otherwise the
    first icon replaces the [_NET_WM_ICON] property and each later one is
    appended, so that for a list that is not empty the property ends up as
    the vectors of all the icons one after the other, whatever it held
    before; an empty list leaves it alone.  The vector of a well-formed icon
    has [w * h + 2] items: the width, the height, then row after row the
    samples, each packed exactly as the bitmap cursor packs its pixels. *)
Theorem setIcons_builds_the_icon_property :
  ∀ (icon_atom : Z) (icons : list Surface) (w : WindowX11) (old : list Z),
    (m_window w = XNone → setIcons icon_atom icons w = [])
    ∧ (m_window w ≠ XNone →
       foldl (λ prop req, property_after icon_atom req prop) old
             (setIcons icon_atom icons w)
       = match icons with
         | [] => old
         | _ => concat (icon_data <$> icons)
         end)
    ∧ (∀ icon, icon ∈ icons → Surface_wf icon →
         length (icon_data icon)
         = Z.to_nat (surface_width icon * surface_height icon + 2)
         ∧ icon_data icon !! 0%nat = Some (surface_width icon)
         ∧ icon_data icon !! 1%nat = Some (surface_height icon)
         ∧ ∀ x y, 0 ≤ x < surface_width icon → 0 ≤ y < surface_height icon →
             ∃ c, Surface_pixel icon x y = Some c
                  ∧ icon_data icon
                      !! Z.to_nat (2 + y * surface_width icon + x)
                    = Some (repack (surface_format icon) c)).
Proof.
  intros icon_atom icons w old. split_and!.
  - intros Hnone. unfold setIcons. by rewrite Hnone.
  - intros Hsome. unfold setIcons. apply Z.eqb_neq in Hsome. rewrite Hsome.
    destruct icons as [|icon rest]; [done|]. simpl.
    by rewrite Z.eqb_refl, setIcons_loop_appends.
  - intros icon _ Hwf. by apply icon_data_layout.
Qed.

Lemma setIcons_builds_the_icon_property_witness :
  foldl (λ prop req, property_after 400 req prop) [7; 7; 7]
        (setIcons 400 [sample_icon; red_surface] (sample_window 1))
  = [2; 3; 0xFFFF0000; 0xFF00FF00; 0xFF0000FF; 0x80FFFFFF; 0; 0x01040302;
     2; 2; 0xFFFF0000; 0xFFFF0000; 0xFFFF0000; 0xFFFF0000]
  ∧ icon_data sample_icon !! Z.to_nat (2 + 1 * 2 + 1) = Some 0x80FFFFFF.
Proof.
  destruct (setIcons_builds_the_icon_property 400 [sample_icon; red_surface]
              (sample_window 1) [7; 7; 7]) as (_ & Hprop & Hlayout).
  split.
  - rewrite Hprop by discriminate. reflexivity.
  - destruct (Hlayout sample_icon) as (_ & _ & _ & Hpixel).
    + apply list_elem_of_In. left. reflexivity.
    + unfold Surface_wf. simpl. repeat split; try lia. repeat constructor.
    + destruct (Hpixel 1 1) as (c & Hc & Hdata); [simpl; lia|simpl; lia|].
      vm_compute in Hc. injection Hc as <-. exact Hdata.
Defined.

(** ** Pointer position *)

(** X6: [setMousePosition] asks to warp the pointer to the logical position
    multiplied by the scale.  With a scale other than zero, the motion event
    the server sends for that device position is translated back to the same
    logical position: it queues one [MouseMove] at that position, or nothing
    when that position is already the last one reported. *)
Theorem setMousePosition_motion_round_trip {P : Platform} :
  ∀ (position : Point) (srv : XGeometry) (g : Globals) (w : WindowX11)
    (now time state : Z),
    m_scale w ≠ 0 →
    time ≠ g_lastXInputEventTime g →
    let dest_x := px position * m_scale w in
    let dest_y := py position * m_scale w in
    setMousePosition position srv w
    = [XWarpPointer 0 0 (geo_width srv) (geo_height srv) dest_x dest_y]
    ∧ let r := processX11Event now
                 (MotionNotify (mkXMotionEvent time dest_x dest_y state))
                 g w in
      m_lastMousePos (t_window r) = position
      ∧ if bool_decide (m_lastMousePos w = position)
        then t_effects r = []
        else ∃ ev, t_effects r = [queueEvent ev]
                   ∧ ev_type ev = MouseMove
                   ∧ ev_position ev = Some position.
Proof.
  intros [x y] srv g w now time state Hscale Htime dest_x dest_y.
  split; [reflexivity|]. subst dest_x dest_y.
  apply Z.eqb_neq in Htime.
  cbn [processX11Event]. unfold processMotionNotify.
  cbn [xm_time xm_x xm_y xm_state px py]. rewrite Htime.
  replace (m_scale (set_m_doubleClickButton NoneButton w))
    with (m_scale w) by done.
  rewrite !Z.quot_mul by done.
  replace (m_lastMousePos (set_m_doubleClickButton NoneButton w))
    with (m_lastMousePos w) by done.
  case_bool_decide as Hsame; simpl.
  - done.
  - split; [done|]. eexists. done.
Qed.

Lemma setMousePosition_motion_round_trip_witness :
  setMousePosition (mkPoint (-3) 8) sample_geometry (sample_window 2)
  = [XWarpPointer 0 0 640 480 (-6) 16]
  ∧ ev_position
      <$> queued (t_effects
                    (processX11Event (H := sample_platform) 1000
                       (MotionNotify (mkXMotionEvent 6000 (-6) 16 0))
                       sample_globals (sample_window 2)))
    = [Some (mkPoint (-3) 8)].
Proof.
  destruct (setMousePosition_motion_round_trip (P := sample_platform)
              (mkPoint (-3) 8) sample_geometry sample_globals
              (sample_window 2) 1000 6000 0)
    as (Hwarp & _ & Hmove).
  - discriminate.
  - discriminate.
  - split; [exact Hwarp|].
    rewrite bool_decide_eq_false_2 in Hmove by discriminate.
    destruct Hmove as (ev & Hqueue & _ & Hpos).
    change (-6) with (px (mkPoint (-3) 8) * m_scale (sample_window 2)).
    change 16 with (py (mkPoint (-3) 8) * m_scale (sample_window 2)).
    rewrite Hqueue. simpl. by rewrite Hpos.
Defined.

(** ** Interactive move and resize *)

(** X7: when the [_NET_WM_MOVERESIZE] atom is missing, [performWindowAction]
    does nothing at all, not even release the pointer.  Otherwise it sends
    exactly one message, carrying the translated position of the event and
    the direction of the action, and releases the pointer grab before it for
    every action except [Cancel].  The ten actions have ten different
    directions, none of them one of the two keyboard variants. *)
Theorem performWindowAction_releases_then_sends :
  ∀ (moveresize_atom : Z) (get_x_mouse_button_from_event : MouseButton → Z)
    (translate : Z → Z → Z * Z) (action : WindowAction.t)
    (ev : option Event) (w : WindowX11),
    let requests :=
      performWindowAction moveresize_atom get_x_mouse_button_from_event
                          translate action ev w in
    (moveresize_atom = XNone → requests = [])
    ∧ (moveresize_atom ≠ XNone →
       ∃ message,
         requests
         = (if bool_decide (action = WindowAction.Cancel)
            then [] else [XUngrabPointer])
           ++ [XSendEvent5 message 0]
         ∧ xc_window message = m_window w
         ∧ xc_message_type message = moveresize_atom
         ∧ xc_l2 message = moveresize_direction action
         ∧ (∀ e p, ev = Some e → ev_position e = Some p →
              (xc_l0 message, xc_l1 message) = translate (px p) (py p))
         ∧ (ev = None →
              (xc_l0 message, xc_l1 message) = translate 0 0
              ∧ xc_l3 message = 0))
    ∧ (∀ other,
         moveresize_direction action = moveresize_direction other →
         action = other)
    ∧ moveresize_direction action ≠ _NET_WM_MOVERESIZE_SIZE_KEYBOARD
    ∧ moveresize_direction action ≠ _NET_WM_MOVERESIZE_MOVE_KEYBOARD.
Proof.
  intros atom button_of translate action ev w requests. split_and!.
  - intros Hnone. subst requests. unfold performWindowAction.
    by rewrite Hnone.
  - intros Hsome. subst requests. unfold performWindowAction.
    apply Z.eqb_neq in Hsome. rewrite Hsome.
    destruct (translate _ _) as [x y] eqn:Htr.
    eexists. split.
    { f_equal. destruct action; done. }
    simpl. split_and!; try done.
    + intros e p -> Hp. rewrite Hp in Htr. simpl in Htr. congruence.
    + intros ->. by rewrite Htr.
  - intros other Heq. destruct action, other; done.
  - by destruct action.
  - by destruct action.
Qed.

Lemma performWindowAction_releases_then_sends_witness :
  ∃ message,
    performWindowAction 500 (λ _, 1) (λ x y, (x + 100, y + 50))
      WindowAction.Move None (sample_window 1)
    = [XUngrabPointer; XSendEvent5 message 0]
    ∧ xc_l2 message = 8
    ∧ (xc_l0 message, xc_l1 message) = (100, 50).
Proof.
  destruct (performWindowAction_releases_then_sends 500 (λ _, 1)
              (λ x y, (x + 100, y + 50)) WindowAction.Move None
              (sample_window 1)) as (_ & Hsend & _).
  destruct Hsend as (message & Hreq & _ & _ & Hdir & _ & Hnone);
    [discriminate|].
  exists message. split; [exact Hreq|]. split; [exact Hdir|].
  by destruct (Hnone eq_refl).
Defined.

(** ** Title *)

Lemma string_of_c_str_take_strlen (s : list Z) :
  string_of_c_str (take (strlen s) s) = string_of_c_str s.
Proof.
  induction s as [|c rest IH]; [done|]. simpl.
  destruct (c =? 0) eqn:Hc; simpl; [done|]. by rewrite Hc, IH.
Qed.

Lemma string_of_c_str_no_nul (s : list Z) :
  0 ∉ s → string_of_c_str s = s.
Proof.
  induction s as [|c rest IH]; [done|]. intros Hnul. simpl.
  apply not_elem_of_cons in Hnul as [Hc Hrest].
  destruct (Z.eqb_spec c 0) as [->|_]; [done|]. by rewrite IH.
Qed.

(** X8: the title read back after [setTitle t] is [t] cut before its first
    character 0, whatever the name of the window was before: a title without
    that character comes back unchanged, and setting the title that was read
    back changes nothing more.  A window whose name cannot be read has the
    empty title. *)
Theorem title_after_setTitle :
  ∀ (t : list Z) (name : option (list Z)),
    let stored := foldl (λ n req, wm_name_after req n) name (setTitle t) in
    title stored = string_of_c_str t
    ∧ (0 ∉ t → title stored = t)
    ∧ foldl (λ n req, wm_name_after req n) stored (setTitle (title stored))
      = Some (title stored)
    ∧ title None = [].
Proof.
  intros t name stored. subst stored. simpl.
  rewrite Nat2Z.id, string_of_c_str_take_strlen. split_and!.
  - done.
  - apply string_of_c_str_no_nul.
  - f_equal.
    assert (∀ s, take (strlen (string_of_c_str s)) (string_of_c_str s)
                 = string_of_c_str s) as Hfull.
    { induction s as [|c rest IH]; [done|]. simpl.
      destruct (c =? 0) eqn:Hc; simpl; [done|]. rewrite Hc. simpl.
      by rewrite IH. }
    rewrite Nat2Z.id. apply Hfull.
  - done.
Qed.

Lemma title_after_setTitle_witness :
  title (foldl (λ n req, wm_name_after req n) (Some [79; 108; 100])
           (setTitle [72; 105; 0; 33]))
  = [72; 105]
  ∧ title (foldl (λ n req, wm_name_after req n) None (setTitle [72; 105]))
    = [72; 105].
Proof.
  destruct (title_after_setTitle [72; 105; 0; 33] (Some [79; 108; 100]))
    as (Hcut & _).
  destruct (title_after_setTitle [72; 105] None) as (_ & Hsame & _).
  split; [exact Hcut|]. apply Hsame.
  intros Hin. apply list_elem_of_In in Hin. simpl in Hin.
  destruct Hin as [? | [? | []]]; discriminate.
Defined.

(** ** Resize notifications *)

Lemma resizes_app a b : resizes (a ++ b) = resizes a ++ resizes b.
Proof. unfold resizes. by rewrite omap_app. Qed.

Lemma resize_requests_app a b :
  resize_requests (a ++ b) = resize_requests a ++ resize_requests b.
Proof. unfold resize_requests. by rewrite omap_app. Qed.

(** One native event reports no size and keeps the last client size, or
    reports one size, positive and other than the last one, and records
    it. *)
Lemma processX11Event_resizes {P : Platform} now event g w :
  let r := processX11Event now event g w in
  (resizes (t_effects r) = []
   ∧ m_lastClientSize (t_window r) = m_lastClientSize w)
  ∨ (∃ size, resizes (t_effects r) = [size]
             ∧ m_lastClientSize w ≠ size
             ∧ 0 < sw size ∧ 0 < sh size
             ∧ m_lastClientSize (t_window r) = size).
Proof.
  destruct event; simpl; try (by left); try other_events.
  unfold processConfigureNotify.
    destruct (m_initializingFromFrame w); [by left|]. simpl.
    destruct (0 <? width) eqn:Hw; [|by left].
    destruct (0 <? height) eqn:Hh; [|by left]. simpl.
    case_bool_decide as Hnew; [|by left].
    right. eexists. split; [done|]. simpl.
    apply Z.ltb_lt in Hw, Hh. split_and!; done.
Qed.

(** One native event makes no [XResizeWindow] request and keeps the flag of
    the construction from a frame, or makes one request and clears a flag
    that was set. *)
Lemma processX11Event_resize_requests {P : Platform} now event g w :
  let r := processX11Event now event g w in
  (resize_requests (t_effects r) = []
   ∧ (m_initializingFromFrame (t_window r) = true →
      m_initializingFromFrame w = true))
  ∨ (∃ request, resize_requests (t_effects r) = [request]
                ∧ m_initializingFromFrame w = true
                ∧ m_initializingFromFrame (t_window r) = false).
Proof.
  destruct event; simpl; try (by left); try other_events.
  unfold processConfigureNotify.
    destruct (m_initializingFromFrame w) eqn:Hinit.
  - right. eexists. done.
  - left. repeat case_match; simpl; split; try done; congruence.
Qed.

Lemma processX11Events_resize_requests {P : Platform} events : ∀ g w,
  let r := processX11Events events g w in
  (length (resize_requests (t_effects r)) ≤ 1)%nat
  ∧ (m_initializingFromFrame w = false →
     resize_requests (t_effects r) = []
     ∧ m_initializingFromFrame (t_window r) = false).
Proof.
  induction events as [|[now event] rest IH]; intros g w.
  - simpl. split; [lia|done].
  - cbv zeta.
    destruct (processX11Events_cons now event rest g w) as [-> ->].
    set (r1 := processX11Event now event g w).
    destruct (IH (t_globals r1) (t_window r1)) as [Hle Hoff].
    rewrite resize_requests_app, length_app.
    pose proof (processX11Event_resize_requests now event g w) as Hcase.
    cbv zeta in Hcase. fold r1 in Hcase.
    destruct Hcase as [[Hnone Hflag] | (request & Hone & Hon & Hoff1)].
    + rewrite Hnone. simpl. split; [done|]. intros Hw.
      apply Hoff. destruct (m_initializingFromFrame (t_window r1)); [|done].
      rewrite Hflag in Hw; done.
    + rewrite Hone. destruct (Hoff Hoff1) as [-> Hend]. simpl.
      split; [lia|]. congruence.
Qed.

(** X9: over any sequence of native events, every size given to the resize
    callback has a positive width and a positive height, no size is reported
    twice in a row nor equals the client size known before the sequence, and
    the last size reported is the one the window remembers.  At most one
    [XResizeWindow] request is ever made, and none by a window that was not
    constructed from a frame. *)
Theorem resize_reports_are_positive_and_new {P : Platform} :
  ∀ (events : list (Z * XEvent)) (g : Globals) (w : WindowX11),
    let r := processX11Events events g w in
    let sizes := resizes (t_effects r) in
    Forall (λ size, 0 < sw size ∧ 0 < sh size) sizes
    ∧ adjacent_distinct (m_lastClientSize w :: sizes)
    ∧ last (m_lastClientSize w :: sizes)
      = Some (m_lastClientSize (t_window r))
    ∧ (length (resize_requests (t_effects r)) ≤ 1)%nat
    ∧ (m_initializingFromFrame w = false →
       resize_requests (t_effects r) = []).
Proof.
  intros events g w r sizes.
  assert (Forall (λ size, 0 < sw size ∧ 0 < sh size) sizes
          ∧ adjacent_distinct (m_lastClientSize w :: sizes)
          ∧ last (m_lastClientSize w :: sizes)
            = Some (m_lastClientSize (t_window r))) as (H1 & H2 & H3).
  { subst r sizes. revert g w.
    induction events as [|[now event] rest IH]; intros g w.
    - simpl. split; [constructor|]. done.
    - destruct (processX11Events_cons now event rest g w) as [-> ->].
      set (r1 := processX11Event now event g w).
      destruct (IH (t_globals r1) (t_window r1)) as (Hpos & Hadj & Hlast).
      rewrite resizes_app.
      pose proof (processX11Event_resizes now event g w) as Hcase.
      cbv zeta in Hcase. fold r1 in Hcase.
      destruct Hcase
        as [[Hnone Hkeep] | (size & Hone & Hnew & Hw & Hh & Hrec)].
      + rewrite Hnone. simpl app. by rewrite <- Hkeep.
      + rewrite Hone. simpl app. rewrite Hrec in Hadj, Hlast.
        split; [by constructor|]. split; [by split|]. done. }
  destruct (processX11Events_resize_requests events g w) as [Hle Hoff].
  split_and!; try done. intros Hw. by destruct (Hoff Hw).
Qed.

Lemma resize_reports_are_positive_and_new_witness :
  let r := processX11Events (H := sample_platform)
             [(1, ConfigureNotify 0 0 640 480);
              (2, ConfigureNotify 10 10 640 480);
              (3, ConfigureNotify 10 10 0 0);
              (4, ConfigureNotify 10 10 800 600)]
             sample_globals (sample_window 1) in
  resizes (t_effects r) = [mkSize 640 480; mkSize 800 600]
  ∧ resize_requests (t_effects r) = [].
Proof.
  cbv zeta. split; [reflexivity|].
  apply (resize_reports_are_positive_and_new (P := sample_platform)
           [(1, ConfigureNotify 0 0 640 480);
            (2, ConfigureNotify 10 10 640 480);
            (3, ConfigureNotify 10 10 0 0);
            (4, ConfigureNotify 10 10 800 600)]
           sample_globals (sample_window 1)).
  reflexivity.
Defined.

(** ** Motion events *)

Lemma moves_app a b : moves (a ++ b) = moves a ++ moves b.
Proof. unfold moves, queued. by rewrite !omap_app. Qed.

(** An event of the core protocol queues no [MouseMove] and keeps the last
    pointer position, or queues one at a position other than the last one
    and records it; it leaves [g_lastXInputEventTime] alone. *)
Lemma processX11Event_moves {P : Platform} now event g w :
  is_XInputEvent event = false →
  let r := processX11Event now event g w in
  g_lastXInputEventTime (t_globals r) = g_lastXInputEventTime g
  ∧ ((moves (t_effects r) = []
      ∧ m_lastMousePos (t_window r) = m_lastMousePos w)
     ∨ (∃ pos, moves (t_effects r) = [pos]
               ∧ m_lastMousePos w ≠ pos
               ∧ m_lastMousePos (t_window r) = pos)).
Proof.
  intros Hcore. destruct event; try discriminate Hcore; simpl;
    try (split; [done|by left]).
  - unfold processConfigureNotify.
    repeat case_match; (split; [done|by left]).
  - unfold processKeyEvent.
    repeat case_match; simplify_eq; (split; [done|by left]).
  - unfold processKeyEvent.
    repeat case_match; simplify_eq; (split; [done|by left]).
  - unfold processButtonEvent.
    repeat case_match; (split; [done|by left]).
  - unfold processButtonEvent.
    repeat case_match; (split; [done|by left]).
  - unfold processMotionNotify.
    destruct (xm_time m =? g_lastXInputEventTime g); [split; [done|by left]|].
    case_bool_decide as Hsame; (split; [done|]); [by left|].
    right. eexists. split; [done|]. split; [|done]. exact Hsame.
  - unfold processCrossingEvent.
    repeat case_match; (split; [done|by left]).
  - unfold processCrossingEvent.
    repeat case_match; (split; [done|by left]).
  - case_match; (split; [done|by left]).
  - unfold processPropertyNotify.
    repeat case_match; (split; [done|by left]).
Qed.

(** X10: over any sequence of events of the core protocol, no two
    [MouseMove] events in a row carry the same position, the first one
    differs from the pointer position known before the sequence, and the
    last one is the position the window remembers. *)
Theorem motion_reports_change_position {P : Platform} :
  ∀ (events : list (Z * XEvent)) (g : Globals) (w : WindowX11),
    Forall (λ e, is_XInputEvent e.2 = false) events →
    let r := processX11Events events g w in
    adjacent_distinct (m_lastMousePos w :: moves (t_effects r))
    ∧ last (m_lastMousePos w :: moves (t_effects r))
      = Some (m_lastMousePos (t_window r)).
Proof.
  intros events. induction events as [|[now event] rest IH];
    intros g w Hcore; [done|].
  inversion Hcore as [|? ? Hhead Hrest]; subst. simpl in Hhead.
  cbv zeta.
  destruct (processX11Events_cons now event rest g w) as [-> ->].
  set (r1 := processX11Event now event g w).
  destruct (IH (t_globals r1) (t_window r1) Hrest) as (Hadj & Hlast).
  rewrite moves_app.
  pose proof (processX11Event_moves now event g w Hhead) as Hcase.
  cbv zeta in Hcase. fold r1 in Hcase.
  destruct Hcase as [_ [[Hnone Hkeep] | (pos & Hone & Hnew & Hrec)]].
  - rewrite Hnone. simpl app. by rewrite <- Hkeep.
  - rewrite Hone. simpl app. rewrite Hrec in Hadj, Hlast.
    split; [by split|done].
Qed.

Lemma motion_reports_change_position_witness :
  moves (t_effects
           (processX11Events (H := sample_platform)
              [(1, MotionNotify (mkXMotionEvent 6000 10 10 0));
               (2, MotionNotify (mkXMotionEvent 6001 11 11 0));
               (3, ButtonPress left_press);
               (4, MotionNotify (mkXMotionEvent 6002 12 12 0))]
              sample_globals (sample_window 2)))
  = [mkPoint 5 5; mkPoint 6 6]
  ∧ adjacent_distinct [mkPoint (-1) (-1); mkPoint 5 5; mkPoint 6 6].
Proof.
  split; [reflexivity|].
  apply (motion_reports_change_position (P := sample_platform)
           [(1, MotionNotify (mkXMotionEvent 6000 10 10 0));
            (2, MotionNotify (mkXMotionEvent 6001 11 11 0));
            (3, ButtonPress left_press);
            (4, MotionNotify (mkXMotionEvent 6002 12 12 0))]
           sample_globals (sample_window 2)).
  repeat constructor.
Defined.

(** ** What the translation of events leaves alone *)

Lemma processX11Event_untouched {P : Platform} now event g w :
  let r := processX11Event now event g w in
  (m_window (t_window r), m_cursor (t_window r), m_xcursorImage (t_window r),
   m_xic (t_window r), m_scale (t_window r), m_fullScreen (t_window r),
   m_borderless (t_window r))
  = (m_window w, m_cursor w, m_xcursorImage w, m_xic w, m_scale w,
     m_fullScreen w, m_borderless w)
  ∧ (WM_DELETE_WINDOW (t_globals r), _NET_FRAME_EXTENTS (t_globals r),
     _NET_WM_STATE (t_globals r), empty_xcursor (t_globals r))
    = (WM_DELETE_WINDOW g, _NET_FRAME_EXTENTS g, _NET_WM_STATE g,
       empty_xcursor g).
Proof.
  destruct event; simpl; try done.
  - unfold processConfigureNotify. repeat case_match; (simpl; split; congruence).
  - unfold processKeyEvent. repeat case_match; simplify_eq; (simpl; split; congruence).
  - unfold processKeyEvent. repeat case_match; simplify_eq; (simpl; split; congruence).
  - unfold processButtonEvent. repeat case_match; (simpl; split; congruence).
  - unfold processButtonEvent. repeat case_match; (simpl; split; congruence).
  - unfold processMotionNotify. repeat case_match; (simpl; split; congruence).
  - unfold processCrossingEvent. repeat case_match; (simpl; split; congruence).
  - unfold processCrossingEvent. repeat case_match; (simpl; split; congruence).
  - case_match; (simpl; split; congruence).
  - unfold processPropertyNotify. repeat case_match; (simpl; split; congruence).
Qed.

(** X11: no sequence of native events, XInput events included, changes the
    handle, the cursor, the cursor image, the input context, the scale, the
    cached fullscreen flag or the borderless flag of the window, nor the
    cached atoms or the hidden cursor: the translation of events only
    touches the state it owns. *)
Theorem event_translation_leaves_configuration {P : Platform} :
  ∀ (events : list (Z * XEvent)) (g : Globals) (w : WindowX11),
    let r := processX11Events events g w in
    (m_window (t_window r), m_cursor (t_window r),
     m_xcursorImage (t_window r), m_xic (t_window r), m_scale (t_window r),
     m_fullScreen (t_window r), m_borderless (t_window r))
    = (m_window w, m_cursor w, m_xcursorImage w, m_xic w, m_scale w,
       m_fullScreen w, m_borderless w)
    ∧ (WM_DELETE_WINDOW (t_globals r), _NET_FRAME_EXTENTS (t_globals r),
       _NET_WM_STATE (t_globals r), empty_xcursor (t_globals r))
      = (WM_DELETE_WINDOW g, _NET_FRAME_EXTENTS g, _NET_WM_STATE g,
         empty_xcursor g).
Proof.
  intros events. induction events as [|[now event] rest IH]; intros g w;
    [done|].
  cbv zeta. simpl.
  destruct (IH (t_globals (processX11Event now event g w))
               (t_window (processX11Event now event g w))) as [-> ->].
  apply processX11Event_untouched.
Qed.

(** ** Key events *)

Lemma lor_keeps_bits (modifiers bit : Z) :
  Z.land (Z.lor modifiers bit) bit = bit.
Proof.
  apply Z.bits_inj'. intros n Hn.
  rewrite Z.land_spec, Z.lor_spec.
  destruct (Z.testbit modifiers n), (Z.testbit bit n); done.
Qed.

(** X12: a key event that the input method filters is dropped: nothing is
    queued and neither the globals nor the window change.  Any other key
    event queues exactly one event, [KeyDown] for a press and [KeyUp] for a
    release, with the scancode of its keysym and, only when the window has
    an input context, the character looked up; the window is not changed.
    For Shift, Control, Alt, Meta and Super keys the modifiers of the event
    contain the bit of the key itself, whatever the native state says; for
    every other key they are the decoded native state. *)
Theorem key_event_translation {P : Platform} :
  ∀ (now : Z) (press : bool) (k : XKeyEvent) (g : Globals) (w : WindowX11),
    let r := processX11Event now (if press then KeyPress k else KeyRelease k)
                             g w in
    if xk_filtered k then r = mkTranslated g w []
    else
      t_window r = w
      ∧ ∃ ev modifiers,
          t_effects r = [queueEvent ev]
          ∧ ev_type ev = (if press then KeyDown else KeyUp)
          ∧ ev_scancode ev = Some (x11_keysym_to_scancode (xk_keysym k))
          ∧ ev_unicodeChar ev = (if m_xic w then xk_char k else None)
          ∧ ev_position ev = None
          ∧ ev_modifiers ev = Some modifiers
          ∧ match own_modifier (xk_keysym k) with
            | Some bit =>
                modifiers = Z.lor (get_modifiers_from_x (xk_state k)) bit
                ∧ Z.land modifiers bit = bit
            | None => modifiers = get_modifiers_from_x (xk_state k)
            end.
Proof.
  intros now press k g w.
  destruct press; cbn [processX11Event]; unfold processKeyEvent;
    (destruct (xk_filtered k); [done|]);
    (destruct (Z.eqb_spec (xk_keysym k) XK_space) as [Hspace | Hother];
     [ rewrite Hspace; cbn [own_modifier]
     | unfold own_modifier ]);
    repeat case_match; simplify_eq; simpl;
    (split; [done|]); eexists _, _; split_and!; try done;
    apply lor_keeps_bits.
Qed.







(** ** XInput events and their core duplicates *)

(** X14: an event claimed by the XInput extension is queued as converted
    and changes nothing of the window; the core pointer event that the
    server sends with the same time stamp right after it is then dropped, so
    that the two native events together queue one canonical event. *)
Theorem xinput_event_then_core_duplicate {P : Platform} :
  ∀ (now1 now2 : Z) (ev : Event) (time : Z) (event : XEvent)
    (g : Globals) (w : WindowX11),
    core_pointer_time event = Some time →
    processX11Events [(now1, XInputEvent ev time); (now2, event)] g w
    = mkTranslated (set_g_lastXInputEventTime time g) w [queueEvent ev].
Proof.
  intros now1 now2 ev time event g w Htime.
  destruct event; simpl in Htime; simplify_eq; simpl.
  - unfold processButtonEvent. simpl. by rewrite Z.eqb_refl.
  - unfold processButtonEvent. simpl. by rewrite Z.eqb_refl.
  - unfold processMotionNotify. simpl. by rewrite Z.eqb_refl.
Qed.

Lemma xinput_event_then_core_duplicate_witness :
  queued_types
    (t_effects
       (processX11Events (H := sample_platform)
          [(10, XInputEvent (setType MouseMove Event_new) 6000);
           (11, MotionNotify (mkXMotionEvent 6000 30 40 0))]
          sample_globals (sample_window 1)))
  = [MouseMove].
Proof.
  rewrite (xinput_event_then_core_duplicate (P := sample_platform) 10 11
             (setType MouseMove Event_new) 6000
             (MotionNotify (mkXMotionEvent 6000 30 40 0))
             sample_globals (sample_window 1)).
  - reflexivity.
  - reflexivity.
Defined.

(** ** Close requests *)

(** X15: among the events of the core protocol, a [CloseWindow] event is
    queued for the client message that carries [WM_DELETE_WINDOW] and for no
    other event.  A client message never changes the window nor the globals
    (the window is not destroyed), and one that carries anything else has no
    effect at all. *)
Theorem close_only_for_WM_DELETE_WINDOW {P : Platform} :
  ∀ (now : Z) (event : XEvent) (g : Globals) (w : WindowX11),
    is_XInputEvent event = false →
    let r := processX11Event now event g w in
    (CloseWindow ∈ queued_types (t_effects r)
     ↔ event = ClientMessage (WM_DELETE_WINDOW g))
    ∧ (∀ l0, event = ClientMessage l0 →
         t_window r = w ∧ t_globals r = g
         ∧ (l0 ≠ WM_DELETE_WINDOW g → t_effects r = [])).
Proof.
  intros now event g w Hcore r. subst r. split.
  - destruct event; try discriminate Hcore; cbn [processX11Event];
      unfold processConfigureNotify, processKeyEvent, processButtonEvent,
        processMotionNotify, processCrossingEvent, processPropertyNotify;
      try (split; [|discriminate]; intros Hin; exfalso;
           repeat case_match; simplify_eq;
           unfold queued_types in Hin; simpl in Hin;
           first [ by apply elem_of_nil in Hin
                 | apply list_elem_of_singleton in Hin; discriminate Hin ]).
    destruct (Z.eqb_spec l0 (WM_DELETE_WINDOW g)) as [-> | Hne].
    + split; [done|]. intros _. apply list_elem_of_singleton. done.
    + split; [|congruence]. intros Hin. by apply elem_of_nil in Hin.
  - intros l0 ->. simpl.
    destruct (Z.eqb_spec l0 (WM_DELETE_WINDOW g)); done.
Qed.

Lemma close_only_for_WM_DELETE_WINDOW_witness :
  CloseWindow
  ∈ queued_types
      (t_effects (processX11Event (H := sample_platform) 0
                    (ClientMessage 301) sample_globals (sample_window 1))).
Proof.
  apply (close_only_for_WM_DELETE_WINDOW (P := sample_platform) 0
           (ClientMessage 301) sample_globals (sample_window 1)).
  - reflexivity.
  - reflexivity.
Defined.

(** ** Cursor requests that install nothing, or the same thing twice *)

Lemma setX11Cursor_none srv g w :
  setX11Cursor XNone (mkCursorState srv g w)
  = (mkCursorState
       (mkXServer
          (after_release (m_cursor w) (empty_xcursor g) (live_cursors srv))
          (next_xid srv) (defined_cursor srv))
       g
       (if bool_decide (m_cursor w ≠ XNone) then set_m_cursor XNone w else w),
     false).
Proof.
  unfold setX11Cursor, after_release.
  destruct (decide (m_cursor w = XNone)) as [Hnone | Hsome].
  - rewrite (bool_decide_eq_false_2 (m_cursor w ≠ XNone)) by tauto.
    rewrite (bool_decide_eq_false_2 (_ ∧ _)) by tauto.
    rewrite (bool_decide_eq_false_2 (XNone ≠ XNone)) by tauto.
    by destruct srv.
  - rewrite (bool_decide_eq_true_2 (m_cursor w ≠ XNone)) by done.
    rewrite (bool_decide_eq_false_2 (XNone ≠ XNone)) by tauto.
    destruct (decide (m_cursor w = empty_xcursor g)) as [Hhidden | Hown].
    + rewrite (bool_decide_eq_false_2 (m_cursor w ≠ empty_xcursor g))
        by tauto.
      rewrite (bool_decide_eq_false_2 (_ ∧ _)) by tauto.
      by destruct srv.
    + rewrite (bool_decide_eq_true_2 (m_cursor w ≠ empty_xcursor g)) by done.
      by rewrite (bool_decide_eq_true_2 (_ ∧ _)).
Qed.

(** X16: a bitmap cursor request that passes the two tests but cannot be
    completed (no image could be obtained, or the cursor could not be
    created from it) returns false and still gives up the cursor the window
    had: that handle is freed unless it is the hidden cursor, the window is
    left without a cursor handle, and no cursor is defined for the window,
    so the server goes on showing the one defined before. *)
Theorem failed_bitmap_cursor_drops_old_cursor :
  ∀ (lib : Xcursor) (surface : Surface) (focus : Point) (scale : Z)
    (st : CursorState),
    XcursorSupportsARGB lib = true →
    bitsPerPixel (surface_format surface) = 32 →
    cursor_image lib (cs_window st) (scale * surface_width surface)
                 (scale * surface_height surface) = None
    ∨ XcursorImageLoadCursor_succeeds lib = false →
    let r := setNativeMouseCursor_surface lib surface focus scale st in
    snd r = false
    ∧ m_cursor (cs_window (fst r)) = XNone
    ∧ live_cursors (cs_server (fst r))
      = after_release (m_cursor (cs_window st))
                      (empty_xcursor (cs_globals st))
                      (live_cursors (cs_server st))
    ∧ next_xid (cs_server (fst r)) = next_xid (cs_server st)
    ∧ defined_cursor (cs_server (fst r)) = defined_cursor (cs_server st)
    ∧ cs_globals (fst r) = cs_globals st.
Proof.
  intros lib surface focus scale [srv g w] Hargb Hbpp Hfail r. subst r.
  unfold setNativeMouseCursor_surface. rewrite Hargb. simpl negb. cbv iota.
  rewrite bool_decide_eq_false_2 by (intros Hne; by apply Hne).
  cbn [cs_window cs_server cs_globals] in *.
  destruct (cursor_image lib w _ _) as [img|] eqn:Himg.
  - destruct Hfail as [? | Hload]; [done|]. rewrite Hload.
    rewrite setX11Cursor_none. simpl. split_and!; try done.
    case_bool_decide; [done|]. simpl.
    destruct (decide (m_cursor w = XNone)); [done|tauto].
  - rewrite setX11Cursor_none. simpl. split_and!; try done.
    case_bool_decide; [done|]. simpl.
    destruct (decide (m_cursor w = XNone)); [done|tauto].
Qed.

Lemma failed_bitmap_cursor_drops_old_cursor_witness :
  let lib := mkXcursor true (λ _ _, None) true in
  let before :=
    fst (setNativeMouseCursor Arrow sample_cursor_state) in
  let r := setNativeMouseCursor_surface lib red_surface (mkPoint 0 0) 2
             before in
  m_cursor (cs_window before) = 1
  ∧ snd r = false
  ∧ m_cursor (cs_window (fst r)) = XNone
  ∧ live_cursors (cs_server (fst r))
    = after_release 1 XNone (live_cursors (cs_server before)).
Proof.
  cbv zeta. split; [reflexivity|].
  destruct (failed_bitmap_cursor_drops_old_cursor
              (mkXcursor true (λ _ _, None) true) red_surface (mkPoint 0 0) 2
              (fst (setNativeMouseCursor Arrow sample_cursor_state)))
    as (Hret & Hcur & Hlive & _).
  - reflexivity.
  - reflexivity.
  - left. reflexivity.
  - split; [exact Hret|]. split; [exact Hcur|]. exact Hlive.
Defined.

(** X17: asking for the hidden cursor succeeds and leaves the window holding
    the shared hidden cursor; asking for it again right away changes nothing
    at all: no cursor is created or freed and the state of the server, of
    the globals and of the window is the same as after the first request
    (the identifiers the server hands out are not [None]). *)
Theorem hidden_cursor_request_is_idempotent :
  ∀ (st : CursorState),
    next_xid (cs_server st) ≠ XNone →
    let r1 := setNativeMouseCursor Hidden st in
    let r2 := setNativeMouseCursor Hidden (fst r1) in
    snd r1 = true
    ∧ empty_xcursor (cs_globals (fst r1)) ≠ XNone
    ∧ m_cursor (cs_window (fst r1)) = empty_xcursor (cs_globals (fst r1))
    ∧ r2 = r1.
Proof.
  intros [srv g w] Hfresh. cbn [cs_server] in Hfresh.
  assert (∀ srv g w,
            empty_xcursor g ≠ XNone →
            setNativeMouseCursor Hidden (mkCursorState srv g w)
            = (mkCursorState
                 (XDefineCursor (m_window w) (empty_xcursor g)
                    (if bool_decide (m_cursor w ≠ XNone ∧
                                     m_cursor w ≠ empty_xcursor g)
                     then XFreeCursor (m_cursor w) srv else srv))
                 g (set_m_cursor (empty_xcursor g) w), true)) as Hexists.
  { clear. intros srv g w HE. unfold setNativeMouseCursor.
    rewrite bool_decide_eq_false_2 by done. cbv beta iota zeta.
    unfold setX11Cursor.
    rewrite (bool_decide_eq_true_2 (empty_xcursor g ≠ XNone)) by done.
    destruct (decide (m_cursor w = XNone)) as [Hn|Hn].
    - rewrite (bool_decide_eq_false_2 (m_cursor w ≠ XNone)) by tauto.
      rewrite (bool_decide_eq_false_2 (_ ∧ _)) by tauto. done.
    - rewrite (bool_decide_eq_true_2 (m_cursor w ≠ XNone)) by done.
      destruct (decide (m_cursor w = empty_xcursor g)) as [He|He].
      + rewrite (bool_decide_eq_false_2 (m_cursor w ≠ empty_xcursor g))
          by tauto.
        rewrite (bool_decide_eq_false_2 (_ ∧ _)) by tauto. done.
      + rewrite (bool_decide_eq_true_2 (m_cursor w ≠ empty_xcursor g))
          by done.
        rewrite (bool_decide_eq_true_2 (_ ∧ _)) by done. done. }
  assert (∃ srv1 g1 w1,
            setNativeMouseCursor Hidden (mkCursorState srv g w)
            = (mkCursorState
                 (XDefineCursor (m_window w1) (empty_xcursor g1) srv1)
                 g1 (set_m_cursor (empty_xcursor g1) w1), true)
            ∧ empty_xcursor g1 ≠ XNone)
    as (srv1 & g1 & w1 & Hfirst & HE1).
  { destruct (decide (empty_xcursor g = XNone)) as [Hnone | Hsome].
    - unfold setNativeMouseCursor.
      rewrite bool_decide_eq_true_2 by done.
      unfold XCreateCursor. cbv beta iota zeta.
      unfold setX11Cursor.
      cbn [empty_xcursor set_empty_xcursor].
      rewrite (bool_decide_eq_true_2 (next_xid srv ≠ XNone)) by done.
      set (created := mkXServer ({[next_xid srv]} ∪ live_cursors srv)
                        (next_xid srv + 1) (defined_cursor srv)).
      set (g1 := set_empty_xcursor (next_xid srv) g).
      destruct (decide (m_cursor w = XNone)) as [Hn|Hn].
      + rewrite (bool_decide_eq_false_2 (m_cursor w ≠ XNone)) by tauto.
        exists created, g1, w. by split.
      + rewrite (bool_decide_eq_true_2 (m_cursor w ≠ XNone)) by done.
        case_bool_decide.
        * exists (XFreeCursor (m_cursor w) created), g1,
                 (set_m_cursor XNone w). by split.
        * exists created, g1, (set_m_cursor XNone w). by split.
    - eexists _, _, _. split; [|exact Hsome]. by apply Hexists. }
  cbv zeta. rewrite Hfirst. cbn [fst snd cs_globals cs_window].
  split_and!; try done.
  rewrite Hexists by done.
  cbn [m_cursor set_m_cursor m_window].
  rewrite (bool_decide_eq_false_2 (_ ∧ _)) by tauto.
  f_equal. f_equal.
  unfold XDefineCursor. cbn [live_cursors next_xid defined_cursor].
  by rewrite insert_insert_eq.
Qed.

Lemma hidden_cursor_request_is_idempotent_witness :
  let r1 := setNativeMouseCursor Hidden sample_cursor_state in
  snd r1 = true
  ∧ m_cursor (cs_window (fst r1)) = 1
  ∧ setNativeMouseCursor Hidden (fst r1) = r1.
Proof.
  destruct (hidden_cursor_request_is_idempotent sample_cursor_state)
    as (Hret & _ & _ & Hsame).
  - discriminate.
  - cbv zeta. split; [exact Hret|]. split; [reflexivity|exact Hsame].
Defined.

Lemma setX11Cursor_installs x srv g w :
  x ≠ XNone →
  let r := setX11Cursor x (mkCursorState srv g w) in
  snd r = true
  ∧ m_cursor (cs_window (fst r)) = x
  ∧ m_window (cs_window (fst r)) = m_window w
  ∧ defined_cursor (cs_server (fst r)) !! m_window w = Some x.
Proof.
  intros Hx. unfold setX11Cursor.
  rewrite (bool_decide_eq_true_2 (x ≠ XNone)) by done.
  repeat case_bool_decide; simpl; split_and!; try done;
    apply lookup_insert_eq.
Qed.

(** X19: on a server whose identifiers are not [None], a request for a
    symbolic cursor always succeeds: it returns true, the window holds a
    handle other than [None], and that handle is the cursor defined for the
    window on the server, so what the window records and what the server
    shows agree. *)
Theorem symbolic_cursor_request_succeeds :
  ∀ (cursor : NativeCursor) (st : CursorState),
    next_xid (cs_server st) ≠ XNone →
    let r := setNativeMouseCursor cursor st in
    snd r = true
    ∧ m_cursor (cs_window (fst r)) ≠ XNone
    ∧ defined_cursor (cs_server (fst r)) !! m_window (cs_window st)
      = Some (m_cursor (cs_window (fst r))).
Proof.
  intros cursor [srv g w] Hfresh. cbn [cs_server cs_window] in *.
  assert (∀ x srv' g',
            x ≠ XNone →
            let r := setX11Cursor x (mkCursorState srv' g' w) in
            snd r = true
            ∧ m_cursor (cs_window (fst r)) ≠ XNone
            ∧ defined_cursor (cs_server (fst r)) !! m_window w
              = Some (m_cursor (cs_window (fst r)))) as Hinstall.
  { intros x srv' g' Hx.
    destruct (setX11Cursor_installs x srv' g' w Hx) as (Hret & Hcur & _ & Hdef).
    cbv zeta. rewrite Hcur. done. }
  destruct cursor; unfold setNativeMouseCursor, XCreateCursor;
    cbv beta iota zeta; try (by apply Hinstall).
  case_bool_decide as HE; cbv beta iota zeta; by apply Hinstall.
Qed.

Lemma symbolic_cursor_request_succeeds_witness :
  let r := setNativeMouseCursor Crosshair sample_cursor_state in
  snd r = true
  ∧ m_cursor (cs_window (fst r)) = 1
  ∧ defined_cursor (cs_server (fst r)) !! 77 = Some 1.
Proof.
  destruct (symbolic_cursor_request_succeeds Crosshair sample_cursor_state)
    as (Hret & _ & Hdef).
  - discriminate.
  - cbv zeta. split; [exact Hret|]. split; [reflexivity|exact Hdef].
Defined.

(** ** Fullscreen on and off *)

(** X18: with both atoms available, switching the fullscreen state of a
    window to the other value and back sends two [_NET_WM_STATE] messages,
    first the one for the new value and then the opposite one (add and
    remove, or remove and add), and leaves the window exactly as it was. *)
Theorem setFullscreen_there_and_back :
  ∀ (g : Globals) (atom : Z) (w : WindowX11),
    _NET_WM_STATE g ≠ XNone → atom ≠ XNone →
    ∃ there back,
      setFullscreen_twice g atom (negb (isFullscreen w)) (isFullscreen w) w
      = (w, [XSendEvent there; XSendEvent back])
      ∧ xc_l0 there = (if isFullscreen w then _NET_WM_STATE_REMOVE
                       else _NET_WM_STATE_ADD)
      ∧ xc_l0 back = (if isFullscreen w then _NET_WM_STATE_ADD
                      else _NET_WM_STATE_REMOVE)
      ∧ xc_l1 there = atom ∧ xc_l1 back = atom.
Proof.
  intros g atom w Hs Ha. unfold setFullscreen_twice.
  rewrite (setFullscreen_toggle g atom (negb (isFullscreen w)) w)
    by (done || by destruct (isFullscreen w)).
  rewrite (setFullscreen_toggle g atom (isFullscreen w))
    by (done || unfold isFullscreen; simpl; by destruct (m_fullScreen w)).
  eexists _, _. split.
  - f_equal. destruct w. done.
  - simpl. unfold isFullscreen. by destruct (m_fullScreen w).
Qed.

Lemma setFullscreen_there_and_back_witness :
  ∃ there back,
    setFullscreen_twice sample_globals 304 true false (sample_window 1)
    = (sample_window 1, [XSendEvent there; XSendEvent back])
    ∧ xc_l0 there = _NET_WM_STATE_ADD
    ∧ xc_l0 back = _NET_WM_STATE_REMOVE.
Proof.
  destruct (setFullscreen_there_and_back sample_globals 304
              (sample_window 1))
    as (there & back & Hrun & Hthere & Hback & _).
  - discriminate.
  - discriminate.
  - exists there, back. split; [exact Hrun|]. split; [exact Hthere|].
    exact Hback.
Defined.
